(** * Morph demo dashboard: resource tables and editable cells

    A shallow embedding of the TypeScript sources

      - [lib/mocked-data.tsx]                      (module [mocked])
      - [components/resources/editable-cell.tsx]   (module [EditableCell])
      - the client resource table component        (module [ClientResourceTable])
      - the server resource page                   (module [ServerResourcePage])

    JavaScript values are an inductive type, objects are finite maps from
    property names to values, React state is a record that the handlers
    transform, and everything a handler does to the outside world (remote
    calls, toast notifications) is appended to a log.  Arrays that a closure
    keeps alive and mutates live in an explicit store.

    An [async] handler is run to its end in one step; how each call it
    awaits settles is an argument.  Handlers in flight at the same time are
    not interleaved. *)

From stdpp Require Import base strings gmap list pretty.
From Stdlib Require Import ZArith Ascii.

Set Default Proof Using "Type".
#[local] Set Warnings "-register-all".
#[local] Open Scope string_scope.
#[local] Open Scope list_scope.

(* ================================================================== *)
(** ** JavaScript values *)
(* ================================================================== *)

Module Js.

(** Numbers are carried as integers: the programs below only look at their
    tag and at their truthiness.  A [Date] is carried as its time value. *)
Inductive JsValue : Type :=
  | VUndefined
  | VNull
  | VBool (b : bool)
  | VNum (n : Z)
  | VStr (s : string)
  | VDate (t : Z)
  | VObj (o : gmap string JsValue).

Abbreviation JsObject := (gmap string JsValue).

(** What a [throw] carries. *)
Inductive JsError : Type :=
  | TypeError
  | Error (message : string).

(** Result of evaluating code that may throw. *)
Inductive Exc (A : Type) : Type :=
  | Ok (a : A)
  | Throw (e : JsError).
Arguments Ok {A} a.
Arguments Throw {A} e.

#[global] Instance Exc_ret : MRet Exc := λ A a, Ok a.

#[global] Instance Exc_fmap : FMap Exc := λ A B f c,
  match c with
  | Ok a => Ok (f a)
  | Throw e => Throw e
  end.

#[global] Instance Exc_bind : MBind Exc := λ A B k c,
  match c with
  | Ok a => k a
  | Throw e => Throw e
  end.

(** [try { body } catch { handler }] *)
Definition try_catch {A} (body : Exc A) (handler : JsError → A) : A :=
  match body with
  | Ok a => a
  | Throw e => handler e
  end.

(** A promise as seen by the [await] that consumes it. *)
Inductive Settled (A : Type) : Type :=
  | Resolved (a : A)
  | Rejected (e : JsError).
Arguments Resolved {A} a.
Arguments Rejected {A} e.

Definition await {A} (p : Settled A) : Exc A :=
  match p with
  | Resolved a => Ok a
  | Rejected e => Throw e
  end.

(** [typeof v] *)
Inductive JsType : Type :=
  | TyUndefined | TyObject | TyBoolean | TyNumber | TyString.

Definition typeof (v : JsValue) : JsType :=
  match v with
  | VUndefined => TyUndefined
  | VNull => TyObject
  | VBool _ => TyBoolean
  | VNum _ => TyNumber
  | VStr _ => TyString
  | VDate _ => TyObject
  | VObj _ => TyObject
  end.

Definition is_undefined (v : JsValue) : bool :=
  match v with VUndefined => true | _ => false end.

Definition is_null (v : JsValue) : bool :=
  match v with VNull => true | _ => false end.

Definition is_Date (v : JsValue) : bool :=
  match v with VDate _ => true | _ => false end.

(** ToBoolean *)
Definition truthy (v : JsValue) : bool :=
  match v with
  | VUndefined | VNull => false
  | VBool b => b
  | VNum n => negb (n =? 0)%Z
  | VStr s => negb (bool_decide (s = ""))
  | VDate _ | VObj _ => true
  end.

(** [a || b] *)
Definition or (a b : JsValue) : JsValue := if truthy a then a else b.

(** Own indexed properties of a string: ["0"], ["1"], ... *)
Fixpoint string_chars (i : nat) (s : string) : gmap string JsValue :=
  match s with
  | EmptyString => ∅
  | String c s' => <[pretty i := VStr (String c EmptyString)]> (string_chars (S i) s')
  end.

(** Own enumerable properties, as copied by an object spread [{...v}]. *)
Definition spread (v : JsValue) : gmap string JsValue :=
  match v with
  | VObj o => o
  | VStr s => string_chars 0 s
  | _ => ∅
  end.

(** Property read [v[k]].  Reading a property of [undefined] or [null]
    throws; a missing property reads as [undefined].  Properties inherited
    from the built-in prototypes are not modelled. *)
Definition get (v : JsValue) (k : string) : Exc JsValue :=
  match v with
  | VUndefined | VNull => Throw TypeError
  | VObj o => Ok (default VUndefined (o !! k))
  | VStr s =>
      if bool_decide (k = "length") then Ok (VNum (Z.of_nat (String.length s)))
      else Ok (default VUndefined (string_chars 0 s !! k))
  | _ => Ok VUndefined
  end.

(** Property read on something known to be an object: [o.k]. *)
Definition prop (o : gmap string JsValue) (k : string) : JsValue :=
  default VUndefined (o !! k).

(** Optional chaining [v?.k] *)
Definition get_opt (v : JsValue) (k : string) : JsValue :=
  match get v k with
  | Ok x => x
  | Throw _ => VUndefined
  end.

(** [v === s] for a string [s] *)
Definition strict_eq_string (v : JsValue) (s : string) : bool :=
  match v with
  | VStr s' => bool_decide (s' = s)
  | _ => false
  end.

(** [Array.prototype.forEach] over a body that updates a store [S] and may
    throw: the loop stops at the first throw and keeps what was written
    before it. *)
Fixpoint forEach {A S : Type} (body : A → S → S * option JsError)
    (l : list A) (s : S) : S * option JsError :=
  match l with
  | [] => (s, None)
  | a :: l' =>
      match body a s with
      | (s', None) => forEach body l' s'
      | (s', Some e) => (s', Some e)
      end
  end.

End Js.

Import Js.

(* ================================================================== *)
(** ** lib/mocked-data.tsx *)
(* ================================================================== *)

Record Connector := mkConnector { connector_id : string; connector_name : string }.

Record Field := mkField { field_id : string; field_name : string }.

(** The [icon] of a model is a JSX element and is left out. *)
Record Model := mkModel {
  model_id : string;
  model_name : string;
  model_fields : list Field
}.

Definition CONNECTORS : list Connector :=
  [ mkConnector "hubspot" "Hubspot";
    mkConnector "salesforce" "Salesforce";
    mkConnector "pipedrive" "Pipedrive" ].

Definition genericContact : Model :=
  mkModel "genericContact" "Contact"
    [ mkField "firstName" "First Name";
      mkField "lastName" "Last Name";
      mkField "email" "Email";
      mkField "fld_journeybee_lead__c" "Journeybee Lead";
      mkField "fld_journeybee_partner__c" "Journeybee Partner" ].

Definition genericCompany : Model :=
  mkModel "genericCompany" "Company"
    [ mkField "name" "Name";
      mkField "fld_journeybee_lead__c" "Journeybee Lead";
      mkField "fld_journeybee_partner__c" "Journeybee Partner" ].

Definition crmOpportunity : Model :=
  mkModel "crmOpportunity" "Opportunity"
    [ mkField "name" "Name";
      mkField "amount" "Amount";
      mkField "stage" "Stage";
      mkField "pipeline" "Pipeline";
      mkField "fld_journeybee_lead__c" "Journeybee Lead";
      mkField "fld_journeybee_partner__c" "Journeybee Partner" ].

Definition MODELS : list Model := [ genericContact; genericCompany; crmOpportunity ].

Definition DEMO_OWNER_ID : string := "demo_owner_id".

Definition MORPH_POC_ID : string := "a7b3c9d2".

Module mocked.

Module connectors.
Definition get (id : string) : option Connector :=
  List.find (λ connector, bool_decide (connector_id connector = id)) CONNECTORS.
Definition list : list Connector := CONNECTORS.
End connectors.

Module models.
Definition get (id : string) : option Model :=
  List.find (λ model, bool_decide (model_id model = id)) MODELS.
Definition list : list Model := MODELS.
End models.

Module auth.
Definition getUserOrOrgId : string := DEMO_OWNER_ID.
End auth.

Definition morphPocId : string := "morph-poc-" +:+ MORPH_POC_ID.

End mocked.

(* ================================================================== *)
(** ** components/resources/editable-cell.tsx *)
(* ================================================================== *)

(** The [type] prop of a cell. *)
Inductive CellType : Type :=
  | TText | TNumber | TDate | TSelect | TBoolean | TEmail | TUrl | TPhone.

#[global] Instance CellType_eq_dec : EqDecision CellType.
Proof. solve_decision. Defined.

Module EditableCell.

Record SelectOption := mkOption { label : string; value : string }.

(** [onUpdate] is the commit callback handed down by the parent.  Here it
    tells how the promise it returns settles; every invocation is recorded
    in the list of calls a handler returns. *)
Record Props := mkProps {
  p_value : JsValue;
  p_type : CellType;
  p_options : option (list SelectOption);
  onUpdate : JsValue → Settled unit
}.

(** [useState(false)] and [useState(value)] *)
Record State := mkState { isEditing : bool; editValue : JsValue }.

Definition initial (p : Props) : State :=
  {| isEditing := false; editValue := p_value p |}.

Definition setIsEditing (b : bool) (s : State) : State :=
  {| isEditing := b; editValue := editValue s |}.

Definition setEditValue (v : JsValue) (s : State) : State :=
  {| isEditing := isEditing s; editValue := v |}.

(** A handler returns the next state and the arguments of the [onUpdate]
    calls it made, in order. *)
Definition Outcome : Type := State * list JsValue.

(** Effect run after a render in which [value] or [isEditing] changed:
    reset the edit value unless the cell is being edited. *)
Definition resetEditValue (p : Props) (s : State) : State :=
  if negb (isEditing s) then setEditValue (p_value p) s else s.

Definition handleStartEdit (p : Props) (s : State) : State :=
  setIsEditing true (setEditValue (p_value p) s).

Definition handleCancel (s : State) : State :=
  setIsEditing false s.

(** [await onUpdate(editValue); setIsEditing(false)]: when the awaited
    promise rejects the function stops there. *)
Definition handleSave (p : Props) (s : State) : Outcome :=
  match await (onUpdate p (editValue s)) with
  | Ok _ => (setIsEditing false s, [editValue s])
  | Throw _ => (s, [editValue s])
  end.

Definition handleKeyDown (p : Props) (key : string) (s : State) : Outcome :=
  if bool_decide (key = "Enter") then handleSave p s
  else if bool_decide (key = "Escape") then (handleCancel s, [])
  else (s, []).

(** What the user can do to the rendered cell. *)
Inductive Event : Type :=
  | Click                          (* onClick of the display div *)
  | KeyDown (key : string)         (* onKeyDown of the Input *)
  | Change (text : string)         (* onChange of the Input *)
  | Blur                           (* onBlur of the Input *)
  | ValueChange (val : string)     (* onValueChange of a Select *)
  | CalendarSelect (date : option Z). (* onSelect of the Calendar *)

(** Which widget the edit mode mounts for a type: the [switch] of the
    edit branch. *)
Inductive Widget : Type := WSelect | WDate | WBoolean | WInput.

Definition widget (t : CellType) : Widget :=
  match t with
  | TSelect => WSelect
  | TDate => WDate
  | TBoolean => WBoolean
  | _ => WInput
  end.

Section Runtime.

(** [String(v)] *)
Variable String_ : JsValue → string.
(** [format(new Date(v), pattern)] of date-fns; throws on an invalid date. *)
Variable format : JsValue → string → Exc string.
(** [date.toISOString()] of a date picked in the calendar. *)
Variable toISOString : Z → string.

(** The handler mounted for an event in the current render, if any. *)
Definition dispatch (p : Props) (s : State) (ev : Event) : option Outcome :=
  if isEditing s then
    match widget (p_type p), ev with
    | WSelect, ValueChange val =>
        let s1 := setEditValue (VStr val) s in
        Some (setIsEditing false s1, [VStr val])
    | WDate, CalendarSelect date =>
        let dateValue :=
          Js.or (match date with
                 | Some d => VStr (toISOString d)
                 | None => VUndefined
                 end) (VStr "") in
        let s1 := setEditValue dateValue s in
        Some (setIsEditing false s1, [dateValue])
    | WBoolean, ValueChange v =>
        let boolValue := bool_decide (v = "true") in
        let s1 := setEditValue (VBool boolValue) s in
        Some (setIsEditing false s1, [VBool boolValue])
    | WInput, Change text => Some (setEditValue (VStr text) s, [])
    | WInput, KeyDown key => Some (handleKeyDown p key s)
    | WInput, Blur => Some (handleSave p s)
    | _, _ => None
    end
  else
    match ev with
    | Click => Some (handleStartEdit p s, [])
    | _ => None
    end.

(** What the component returns. *)
Inductive View : Type :=
  | SelectView (selected : string) (items : list (string * string))
      (* Select value; SelectItem (value, label) in order *)
  | DateView (buttonText : string) (selected : option JsValue)
      (* trigger text; argument of [new Date] for the calendar *)
  | InputView (inputType : string) (inputValue : JsValue)
  | DisplayView (content : JsValue).

Definition displayValue (p : Props) : Exc JsValue :=
  let value := p_value p in
  match p_type p with
  | TDate =>
      if truthy value then s ← format value "PP"; mret (VStr s)
      else mret (VStr "-")
  | TBoolean => mret (VStr (if truthy value then "Yes" else "No"))
  | TSelect =>
      let found :=
        match p_options p with
        | Some os =>
            match List.find (λ o, strict_eq_string value (EditableCell.value o)) os with
            | Some o => VStr (label o)
            | None => VUndefined
            end
        | None => VUndefined
        end in
      mret (Js.or found value)
  | _ => mret value
  end.

Definition render (p : Props) (s : State) : Exc View :=
  if isEditing s then
    match widget (p_type p) with
    | WSelect =>
        mret (SelectView (String_ (editValue s))
                (match p_options p with
                 | Some os => (λ o, (EditableCell.value o, label o)) <$> os
                 | None => []
                 end))
    | WDate =>
        if truthy (editValue s) then
          text ← format (editValue s) "PPP";
          mret (DateView text (Some (editValue s)))
        else mret (DateView "Pick a date" None)
    | WBoolean =>
        mret (SelectView (if truthy (editValue s) then "true" else "false")
                [("true", "Yes"); ("false", "No")])
    | WInput =>
        mret (InputView (if bool_decide (p_type p = TNumber) then "number" else "text")
                (editValue s))
    end
  else
    d ← displayValue p;
    mret (DisplayView (Js.or d (VStr "-"))).

End Runtime.

End EditableCell.

(* ================================================================== *)
(** ** next/navigation *)
(* ================================================================== *)

Module Next.

(** What the framework answers for a page or component: the rendered view,
    or the not-found response that a call of [notFound()] produces. *)
Inductive Response (V : Type) : Type :=
  | NotFound
  | Rendered (v : V).
Arguments NotFound {V}.
Arguments Rendered {V} v.

End Next.

(* ================================================================== *)
(** ** The hosted resource API, as the pages call it *)
(* ================================================================== *)

Module Api.

Record ApiError := mkApiError { message : string }.

(** [list(...)] resolves to [{data, next}] or to [{error}]. *)
Inductive ListResult : Type :=
  | ListData (data : list JsObject) (next : JsValue)
  | ListError (error : ApiError).

(** [update(...)] resolves to [{}] or to [{error}]. *)
Inductive UpdateResult : Type :=
  | UpdateDone
  | UpdateError (error : ApiError).

(** Arguments of [resources.list]; [None] is an [undefined] [q]. *)
Record ListParams := mkListParams {
  fields : list string;
  limit : Z;
  q : option string;
  cursor : JsValue
}.

End Api.

(* ================================================================== *)
(** ** The client resource table *)
(* ================================================================== *)

Module ClientResourceTable.

Record Column := mkColumn { id : string; header : string; type : CellType }.

Record ToastArgs := mkToast {
  title : string;
  description : string;
  variant : option string
}.

(** What the component does to the outside world.  Every remote call goes
    through [morph.connections({ sessionToken }).resources(model)] with the
    props of the instance, which are not repeated here. *)
Inductive Effect : Type :=
  | Toast (t : ToastArgs)
  | ListCall (params : Api.ListParams)
  | UpdateCall (rowId : string) (patch : JsObject).

(** The [useState] cells of the component. *)
Record State := mkState {
  search : string;
  debouncedSearch : string;
  rows : list JsObject;
  cursor : JsValue;
  hasMore : bool;
  loading : bool;
  loadingMore : bool;
  initialLoad : bool
}.

Definition initialState : State :=
  {| search := ""; debouncedSearch := ""; rows := []; cursor := VUndefined;
     hasMore := true; loading := false; loadingMore := false;
     initialLoad := true |}.

(** What the [loadResources] callback closes over: the values of the render
    that created it, and the address of that render's [allColumns] array. *)
Record LoadResources := mkLoadResources {
  lr_debouncedSearch : string;
  lr_cursor : JsValue;
  lr_allColumns : nat
}.

(** A component instance: its state, the [allColumns] arrays allocated by
    its renders (one per render, addressed by position), the callback kept
    by [useCallback], and the log of effects so far. *)
Record World := mkWorld {
  state : State;
  store : list (list Column);
  memo : option LoadResources;
  log : list Effect
}.

Definition initialWorld : World :=
  {| state := initialState; store := []; memo := None; log := [] |}.

Definition setState (f : State → State) (w : World) : World :=
  {| state := f (state w); store := store w; memo := memo w; log := log w |}.

Definition setSearch (v : string) : World → World :=
  setState (λ s, {| search := v; debouncedSearch := debouncedSearch s;
    rows := rows s; cursor := cursor s; hasMore := hasMore s;
    loading := loading s; loadingMore := loadingMore s;
    initialLoad := initialLoad s |}).

Definition setDebouncedSearch (v : string) : World → World :=
  setState (λ s, {| search := search s; debouncedSearch := v;
    rows := rows s; cursor := cursor s; hasMore := hasMore s;
    loading := loading s; loadingMore := loadingMore s;
    initialLoad := initialLoad s |}).

(** [setRows(prev => f(prev))]; [setRows(v)] is [setRows (λ _, v)]. *)
Definition setRows (f : list JsObject → list JsObject) : World → World :=
  setState (λ s, {| search := search s; debouncedSearch := debouncedSearch s;
    rows := f (rows s); cursor := cursor s; hasMore := hasMore s;
    loading := loading s; loadingMore := loadingMore s;
    initialLoad := initialLoad s |}).

Definition setCursor (v : JsValue) : World → World :=
  setState (λ s, {| search := search s; debouncedSearch := debouncedSearch s;
    rows := rows s; cursor := v; hasMore := hasMore s;
    loading := loading s; loadingMore := loadingMore s;
    initialLoad := initialLoad s |}).

Definition setHasMore (v : bool) : World → World :=
  setState (λ s, {| search := search s; debouncedSearch := debouncedSearch s;
    rows := rows s; cursor := cursor s; hasMore := v;
    loading := loading s; loadingMore := loadingMore s;
    initialLoad := initialLoad s |}).

Definition setLoading (v : bool) : World → World :=
  setState (λ s, {| search := search s; debouncedSearch := debouncedSearch s;
    rows := rows s; cursor := cursor s; hasMore := hasMore s;
    loading := v; loadingMore := loadingMore s;
    initialLoad := initialLoad s |}).

Definition setLoadingMore (v : bool) : World → World :=
  setState (λ s, {| search := search s; debouncedSearch := debouncedSearch s;
    rows := rows s; cursor := cursor s; hasMore := hasMore s;
    loading := loading s; loadingMore := v;
    initialLoad := initialLoad s |}).

Definition setInitialLoad (v : bool) : World → World :=
  setState (λ s, {| search := search s; debouncedSearch := debouncedSearch s;
    rows := rows s; cursor := cursor s; hasMore := hasMore s;
    loading := loading s; loadingMore := loadingMore s;
    initialLoad := v |}).

Definition emit (e : Effect) (w : World) : World :=
  {| state := state w; store := store w; memo := memo w; log := log w ++ [e] |}.

Definition toast (t : ToastArgs) : World → World := emit (Toast t).

(** Replace the array at an address: the net effect of mutating its
    elements in place. *)
Definition writeColumns (a : nat) (cols : list Column) (w : World) : World :=
  {| state := state w; store := <[a := cols]> (store w); memo := memo w;
     log := log w |}.

Definition readColumns (a : nat) (w : World) : list Column :=
  default [] (store w !! a).

(** [Math.min(Math.max(header.length * 8 + 32, 120), 300)] *)
Definition getColumnWidth (header : string) : Z :=
  let minWidth := Z.max (Z.of_nat (String.length header) * 8 + 32) 120 in
  let maxWidth := 300%Z in
  Z.min minWidth maxWidth.

Definition toastLoadError : ToastArgs :=
  {| title := "Error loading resources";
     description := "Failed to load resources. Please try again.";
     variant := Some "destructive" |}.

Definition toastUpdateError : ToastArgs :=
  {| title := "Error updating resource";
     description := "Failed to update the value. Please try again.";
     variant := Some "destructive" |}.

Definition toastUpdateFailed : ToastArgs :=
  {| title := "Update failed";
     description := "Failed to update the value. Please try again.";
     variant := Some "destructive" |}.

Definition toastValueUpdated (rowId columnId : string) : ToastArgs :=
  {| title := "Value updated";
     description := "Updated " +:+ columnId +:+ " for record "
                    +:+ String.substring 0 8 rowId +:+ "...";
     variant := None |}.

(** [column.type = t] on the first column that [find] returns for an id. *)
Fixpoint updateFound (fid : string) (f : Column → Column) (cols : list Column)
    : list Column :=
  match cols with
  | [] => []
  | col :: cols' =>
      if bool_decide (id col = fid) then f col :: cols'
      else col :: updateFound fid f cols'
  end.

Definition setType (t : CellType) (column : Column) : Column :=
  {| id := id column; header := header column; type := t |}.

Section Component.

(** Props, and the registry entry of the model (the component calls
    [notFound()] when there is none).  Props stay the same for the life of
    the instance. *)
Variable sessionToken : string.
Variable modelDetails : Model.

(** [!isNaN(Date.parse(s))] *)
Variable Date_parsable : string → bool.

(** [const allColumns = [...modelDetails.fields].map(...)]: evaluated by
    every render. *)
Definition allColumns : list Column :=
  (λ field, {| id := field_id field; header := field_name field; type := TText |})
    <$> model_fields modelDetails.

(** The chain of [if]s that infers a type from one value. *)
Definition inferType (value : JsValue) (column : Column) : Column :=
  match typeof value with
  | TyNumber => setType TNumber column
  | TyBoolean => setType TBoolean column
  | _ =>
      if is_Date value
         || match value with VStr s => Date_parsable s | _ => false end
      then setType TDate column
      else column
  end.

(** Body of the inner [forEach]: one field of one item. *)
Definition inferField (item : JsObject) (field : Field) (cols : list Column)
    : list Column * option JsError :=
  match get (prop item "fields") (field_id field) with
  | Throw e => (cols, Some e)
  | Ok value =>
      if negb (is_undefined value)
      then (updateFound (field_id field) (inferType value) cols, None)
      else (cols, None)
  end.

(** [data.forEach(item => modelDetails.fields.forEach(field => ...))] *)
Definition inferTypes (data : list JsObject) (cols : list Column)
    : list Column * option JsError :=
  forEach (λ item, forEach (inferField item) (model_fields modelDetails)) data cols.

Definition listParams (lr : LoadResources) (isLoadMore : bool) : Api.ListParams :=
  let currentCursor := if isLoadMore then lr_cursor lr else VUndefined in
  {| Api.fields := field_id <$> model_fields modelDetails;
     Api.limit := 20;
     Api.q := if bool_decide (0 < String.length (lr_debouncedSearch lr))
              then Some (lr_debouncedSearch lr) else None;
     Api.cursor := currentCursor |}.

(** [loadResources] up to its [await]: raise the loading flag and issue
    the request. *)
Definition loadResources_request (lr : LoadResources) (isLoadMore : bool)
    (w : World) : World :=
  let w := if isLoadMore then setLoadingMore true w else setLoading true w in
  emit (ListCall (listParams lr isLoadMore)) w.

(** The [finally] block. *)
Definition loadResources_finally (w : World) : World :=
  setInitialLoad false (setLoadingMore false (setLoading false w)).

(** [loadResources] from its [await] on, given how the request settled. *)
Definition loadResources_resume (lr : LoadResources) (isLoadMore : bool)
    (response : Settled Api.ListResult) (w : World) : World :=
  loadResources_finally
    match response with
    | Rejected _ => toast toastLoadError w
    | Resolved (Api.ListError _) => toast toastLoadError w
    | Resolved (Api.ListData data next) =>
        match inferTypes data (readColumns (lr_allColumns lr) w) with
        | (cols, Some _) =>
            toast toastLoadError (writeColumns (lr_allColumns lr) cols w)
        | (cols, None) =>
            let w := writeColumns (lr_allColumns lr) cols w in
            let w := if isLoadMore then setRows (λ prev, (prev ++ data)%list) w
                     else setRows (λ _, data) w in
            let w := setCursor (Js.or next VUndefined) w in
            setHasMore (negb (is_null next)) w
        end
    end.

(** A whole call of [loadResources]. *)
Definition loadResources (lr : LoadResources) (isLoadMore : bool)
    (response : Settled Api.ListResult) (w : World) : World :=
  loadResources_resume lr isLoadMore response
    (loadResources_request lr isLoadMore w).

(** [useCallback(..., [debouncedSearch, toast])]: [toast] is stable, so
    the kept callback is replaced exactly when [debouncedSearch] differs
    from the one it was created with. *)
Definition useCallback (kept : option LoadResources) (fresh : LoadResources)
    : LoadResources :=
  match kept with
  | Some old =>
      if bool_decide (lr_debouncedSearch old = lr_debouncedSearch fresh)
      then old else fresh
  | None => fresh
  end.

(** What one run of the component function works with: the state it read,
    the columns it has just built, and the callback it got from
    [useCallback].  The handlers it creates close over these. *)
Record Render := mkRender {
  seen : State;
  columns : list Column;
  callback : LoadResources
}.

(** One run of the component function up to its JSX: a new [allColumns]
    array is allocated, [loadResources] is taken from [useCallback]. *)
Definition render (w : World) : Render * World :=
  let a := length (store w) in
  let fresh := {| lr_debouncedSearch := debouncedSearch (state w);
                  lr_cursor := cursor (state w);
                  lr_allColumns := a |} in
  let cb := useCallback (memo w) fresh in
  ({| seen := state w; columns := allColumns; callback := cb |},
   {| state := state w; store := store w ++ [allColumns]; memo := Some cb;
      log := log w |}).

(** Body of the effect with dependencies
    [sessionToken, debouncedSearch, loadResources]. *)
Definition loadEffect (r : Render) (response : Settled Api.ListResult)
    (w : World) : World :=
  if negb (bool_decide (sessionToken = "")) then
    let w := setRows (λ _, []) w in
    let w := setCursor VUndefined w in
    let w := setHasMore true w in
    loadResources (callback r) false response w
  else w.

(** The optimistic [setRows] of [handleCellUpdate]. *)
Definition optimistic (rowId columnId : string) (value : JsValue)
    (row : JsObject) : JsObject :=
  if strict_eq_string (prop row "id") rowId
  then <[columnId := value]> row
  else row.

(** The [setRows] of [handleCellUpdate] after a successful update. *)
Definition confirmed (rowId columnId : string) (value : JsValue)
    (row : JsObject) : JsObject :=
  if strict_eq_string (prop row "id") rowId
  then <["fields" := VObj (<[columnId := value]> (spread (prop row "fields")))]> row
  else row.

(** A record as the service returns it has a [fields] object.  What the
    loops over its fields need of it is that [item.fields] is neither
    [undefined] nor [null]. *)
Definition hasFields (item : JsObject) : bool :=
  negb (is_undefined (prop item "fields")) && negb (is_null (prop item "fields")).

(** [handleCellUpdate]: [update] is how [resources.update] settles and
    [reload] how the request of the [loadResources()] in the [catch]
    settles, should it be reached. *)
Definition handleCellUpdate (r : Render) (rowId columnId : string)
    (value : JsValue) (update : Settled Api.UpdateResult)
    (reload : Settled Api.ListResult) (w : World) : World :=
  let w := setRows (λ prev, optimistic rowId columnId value <$> prev) w in
  let w := emit (UpdateCall rowId {[ columnId := value ]}) w in
  match update with
  | Resolved (Api.UpdateError _) => toast toastUpdateError w
  | Resolved Api.UpdateDone =>
      let w := setRows (λ prev, confirmed rowId columnId value <$> prev) w in
      toast (toastValueUpdated rowId columnId) w
  | Rejected _ =>
      let w := loadResources_request (callback r) false w in
      let w := toast toastUpdateFailed w in
      loadResources_resume (callback r) false reload w
  end.

Definition handleLoadMore (r : Render) (response : Settled Api.ListResult)
    (w : World) : World :=
  if hasMore (seen r) && negb (loadingMore (seen r))
  then loadResources (callback r) true response w
  else w.

(** Props handed to one [EditableCell]; [onUpdate] calls
    [handleCellUpdate(row.id, column.id, value)]. *)
Record Cell := mkCell {
  cell_value : JsValue;
  cell_type : CellType;
  cell_rowId : JsValue;
  cell_columnId : string
}.

Inductive Body : Type :=
  | BodyMessage (text : string)
  | BodyRows (cells : list (list Cell)).

Inductive View : Type :=
  | ConnectCard
  | TableView (headers : list (string * Z)) (body : Body)
      (loadMoreButton : option bool) (* shown? and then: disabled? *)
      (noMoreResults : bool).

Definition rowCells (r : Render) (row : JsObject) : Exc (list Cell) :=
  mapM (λ column,
          value ← get (prop row "fields") (id column);
          mret {| cell_value := value; cell_type := type column;
                  cell_rowId := prop row "id"; cell_columnId := id column |})
       (columns r).

(** The JSX the component returns. *)
Definition view (r : Render) : Exc View :=
  let s := seen r in
  if bool_decide (sessionToken = "") then mret ConnectCard
  else
    body ←
      (if initialLoad s then mret (BodyMessage "Loading...")
       else if bool_decide (length (rows s) = 0) then
         mret (BodyMessage (if loading s then "Loading..." else "No results found."))
       else BodyRows <$> mapM (rowCells r) (rows s));
    mret (TableView
            ((λ column, (header column, getColumnWidth (header column))) <$> columns r)
            body
            (if hasMore s && bool_decide (0 < length (rows s))
             then Some (loadingMore s || bool_decide (sessionToken = ""))
             else None)
            (negb (hasMore s) && bool_decide (0 < length (rows s)))).

End Component.

(** The component function: look the model up, call [notFound()] when it is
    not in the registry, render otherwise. *)
Definition ClientResourceTable (model sessionToken : string) (w : World)
    : Next.Response (Exc View) * World :=
  match mocked.models.get model with
  | None => (Next.NotFound, w)
  | Some modelDetails =>
      let '(r, w') := render modelDetails w in
      (Next.Rendered (view sessionToken r), w')
  end.

(** [<EditableCell value={value} type={column.type} options={[]}
    onUpdate={...} />]: the promise of [handleCellUpdate] is fulfilled,
    its body being one [try]/[catch]. *)
Definition cellProps (c : Cell) : EditableCell.Props :=
  {| EditableCell.p_value := cell_value c;
     EditableCell.p_type := cell_type c;
     EditableCell.p_options := Some [];
     EditableCell.onUpdate := λ _, Resolved () |}.

(** Mounting: the first render, then the load effect. *)
Definition mount (sessionToken : string) (modelDetails : Model)
    (Date_parsable : string → bool) (response : Settled Api.ListResult) : World :=
  let '(r, w) := render modelDetails initialWorld in
  loadEffect sessionToken modelDetails Date_parsable r response w.

(** The effects a handler added to the log. *)
Definition issued (before after : World) : list Effect :=
  drop (length (log before)) (log after).

(** The [q] that goes with a debounced search term. *)
Definition search_term (s : State) : option string :=
  if bool_decide (debouncedSearch s = "") then None else Some (debouncedSearch s).

(** A request, if the effect is one, carries the search term of [s]. *)
Definition carries_search_term (s : State) (e : Effect) : Prop :=
  match e with
  | ListCall params => Api.q params = search_term s
  | _ => True
  end.

End ClientResourceTable.

(* ================================================================== *)
(** ** The server resource page *)
(* ================================================================== *)

Module ServerResourcePage.

Record Params := mkParams { connectorId : string; modelId : string }.

Record SearchParams := mkSearchParams { q : option string }.

(** One call [morph.connections({ownerId, connectorId}).resources(modelId).list(params)]. *)
Record ListCall := mkListCall {
  call_ownerId : string;
  call_connectorId : string;
  call_modelId : string;
  call_params : Api.ListParams
}.

Inductive Body : Type :=
  | NoResults
  | Rows (cells : list (list JsValue)).

Record PageView := mkPageView {
  title : string;
  description : string;
  searchDefault : option string;
  headers : list string;
  body : Body
}.

(** [row.fields[field.id]?.id ? row.fields[field.id]?.id : row.fields[field.id]] *)
Definition cell (row : JsObject) (field : Field) : Exc JsValue :=
  value ← get (prop row "fields") (field_id field);
  mret (if truthy (get_opt value "id") then get_opt value "id" else value).

Section Page.

(** The hosted service: how the promise of a [list] call settles. *)
Variable morph_list : ListCall → Settled Api.ListResult.

(** The one request of the page. *)
Definition listCall (p : Params) (sp : SearchParams) (modelDetails : Model)
    : ListCall :=
  let ownerId := mocked.auth.getUserOrOrgId in
  let fields := field_id <$> model_fields modelDetails in
  {| call_ownerId := ownerId; call_connectorId := connectorId p;
     call_modelId := modelId p;
     call_params := {| Api.q := q sp; Api.limit := 10; Api.fields := fields;
                       Api.cursor := VUndefined |} |}.

(** The body of the [try] block. *)
Definition construct (params : Settled Params)
    (searchParams : Settled SearchParams) : Exc PageView :=
  p ← await params;
  sp ← await searchParams;
  modelDetails ←
    match mocked.models.get (modelId p) with
    | Some m => mret m
    | None => Throw (Error ("Model " +:+ modelId p +:+ " not found"))
    end;
  result ← await (morph_list (listCall p sp modelDetails));
  match result with
  | Api.ListError error =>
      Throw (Error ("Failed to fetch resources: " +:+ Api.message error))
  | Api.ListData data _ =>
      body ←
        (if bool_decide (length data = 0) then mret NoResults
         else Rows <$> mapM (λ row, mapM (cell row) (model_fields modelDetails)) data);
      mret {| title := model_name modelDetails;
              description := "Server-side " +:+ model_name modelDetails +:+ " resources";
              searchDefault := q sp;
              headers := field_name <$> model_fields modelDetails;
              body := body |}
  end.

(** [try { ... } catch (error) { console.error(...); notFound(); }] *)
Definition ServerResourcePage (params : Settled Params)
    (searchParams : Settled SearchParams) : Next.Response PageView :=
  try_catch (Next.Rendered <$> construct params searchParams)
            (λ error, Next.NotFound).

(** The ways the page can fail that the design names: the model is not in
    the registry, the list call throws, the list call returns an error,
    something is thrown while the page is built. *)
Inductive Fails (params : Settled Params) (searchParams : Settled SearchParams)
    : Prop :=
  | model_not_found (p : Params) (sp : SearchParams) :
      params = Resolved p → searchParams = Resolved sp →
      mocked.models.get (modelId p) = None →
      Fails params searchParams
  | fetch_throws (p : Params) (sp : SearchParams) (m : Model) (e : JsError) :
      params = Resolved p → searchParams = Resolved sp →
      mocked.models.get (modelId p) = Some m →
      morph_list (listCall p sp m) = Rejected e →
      Fails params searchParams
  | fetch_error (p : Params) (sp : SearchParams) (m : Model) (error : Api.ApiError) :
      params = Resolved p → searchParams = Resolved sp →
      mocked.models.get (modelId p) = Some m →
      morph_list (listCall p sp m) = Resolved (Api.ListError error) →
      Fails params searchParams
  | construction_throws (e : JsError) :
      construct params searchParams = Throw e →
      Fails params searchParams.

End Page.

End ServerResourcePage.

(* ================================================================== *)
(** ** The hosted session and field-metadata API *)
(* ================================================================== *)

Module Sessions.

(** Argument of [morph.sessions().create]: [operations] is optional. *)
Record CreateRequest := mkCreateRequest {
  connectorId : string;
  ownerId : string;
  operations : option (list string)
}.

(** [create(...)] resolves to [{data: {sessionToken}}] or to [{error}]. *)
Inductive CreateResult : Type :=
  | SessionData (sessionToken : string)
  | SessionError (error : Api.ApiError).

End Sessions.

(* ================================================================== *)
(** ** The client resource page *)
(* ================================================================== *)

Module ClientResourcePage.

Record Params := mkParams { model : string; connectorId : string }.

(** The header and the props of the [ClientResourceTable] it embeds. *)
Record PageView := mkPageView {
  title : string;
  description : string;
  table_model : string;
  table_sessionToken : string
}.

Section Page.

(** The hosted service: how the promise of a session creation settles. *)
Variable sessions_create : Sessions.CreateRequest → Settled Sessions.CreateResult.

(** The body of the [try] block. *)
Definition construct (params : Settled Params) : Exc PageView :=
  p ← await params;
  modelDetails ←
    match mocked.models.get (model p) with
    | Some m => mret m
    | None => Throw (Error ("Model " +:+ model p +:+ " not found"))
    end;
  let ownerId := mocked.auth.getUserOrOrgId in
  result ← await (sessions_create
    {| Sessions.connectorId := connectorId p; Sessions.ownerId := ownerId;
       Sessions.operations := None |});
  match result with
  | Sessions.SessionError error =>
      Throw (Error ("Failed to create session: " +:+ Api.message error))
  | Sessions.SessionData sessionToken =>
      mret {| title := model_name modelDetails;
              description := "Client-side " +:+ model_name modelDetails +:+ " resources";
              table_model := model p;
              table_sessionToken := sessionToken |}
  end.

(** [try { ... } catch (error) { console.error(...); notFound(); }] *)
Definition ClientResourcePage (params : Settled Params) : Next.Response PageView :=
  try_catch (Next.Rendered <$> construct params) (λ error, Next.NotFound).

End Page.

End ClientResourcePage.

(* ================================================================== *)
(** ** The connection page *)
(* ================================================================== *)

Module ConnectionPage.

Definition REQUIRED_OPERATIONS : list string :=
  [ "genericContact::create"; "genericContact::update";
    "genericContact::retrieve"; "genericContact::list";
    "genericContact::fieldRead"; "genericContact::fieldWrite";
    "genericCompany::create"; "genericCompany::update";
    "genericCompany::retrieve"; "genericCompany::list";
    "genericCompany::fieldRead"; "genericCompany::fieldWrite";
    "crmOpportunity::create"; "crmOpportunity::update";
    "crmOpportunity::retrieve"; "crmOpportunity::list";
    "crmOpportunity::fieldRead"; "crmOpportunity::fieldWrite" ].

Record FieldConfig := mkFieldConfig {
  key : string;
  name : string;
  type : string
}.

Definition CUSTOM_FIELD_CONFIG : FieldConfig :=
  {| key := "custom_field_1"; name := "My Custom Field"; type := "text" |}.

(** A field as [listFields] returns it; the callback reads [field.remote.key]. *)
Record RemoteField := mkRemoteField { remote_key : string }.

Inductive FieldsResult : Type :=
  | FieldsData (fields : list RemoteField)
  | FieldsError (error : Api.ApiError).

Inductive CreateFieldResult : Type :=
  | FieldCreated (field : RemoteField)
  | CreateFieldError (error : Api.ApiError).

(** The calls the [authorized] callback makes, all on the model
    ["genericCompany"] of the connection. *)
Inductive FieldCall : Type :=
  | ListFieldsCall (isCustom : bool)
  | CreateFieldCall (config : FieldConfig).

(** The [authorized] callback: the calls it made, in order, and how it
    ended.  The [catch] logs and throws the error again. *)
Definition authorized (listFields : Settled FieldsResult)
    (createField : Settled CreateFieldResult) : list FieldCall * Exc unit :=
  match await listFields with
  | Throw e => ([ListFieldsCall true], Throw e)
  | Ok (FieldsError _) =>
      ([ListFieldsCall true], Throw (Error "Failed to fetch custom fields"))
  | Ok (FieldsData fieldsData) =>
      let existingField :=
        List.find (λ field, bool_decide (remote_key field = key CUSTOM_FIELD_CONFIG))
          fieldsData in
      match existingField with
      | None =>
          let calls := [ListFieldsCall true; CreateFieldCall CUSTOM_FIELD_CONFIG] in
          match await createField with
          | Throw e => (calls, Throw e)
          | Ok (CreateFieldError _) =>
              (calls, Throw (Error "Failed to create custom field"))
          | Ok (FieldCreated _) => (calls, Ok ())
          end
      | Some _ => ([ListFieldsCall true], Ok ())
      end
  end.

Record PageView := mkPageView {
  title : string;
  description : string;
  connect_sessionToken : string
}.

Section Page.

Variable sessions_create : Sessions.CreateRequest → Settled Sessions.CreateResult.

(** The body of the [try] block. *)
Definition construct (connectorId : string) : Exc PageView :=
  let ownerId := mocked.auth.getUserOrOrgId in
  result ← await (sessions_create
    {| Sessions.connectorId := connectorId; Sessions.ownerId := ownerId;
       Sessions.operations := Some REQUIRED_OPERATIONS |});
  match result with
  | Sessions.SessionError _ => Throw (Error "Failed to create session")
  | Sessions.SessionData sessionToken =>
      match mocked.connectors.get connectorId with
      | None => Throw (Error ("Connector not found: " +:+ connectorId))
      | Some connectorDetails =>
          mret {| title := "Configure " +:+ connector_name connectorDetails;
                  description := "Manage your " +:+ connector_name connectorDetails
                                 +:+ " connection settings and authorization";
                  connect_sessionToken := sessionToken |}
      end
  end.

(** [const { connectorId } = await params] comes before the [try]: when it
    throws, the page function throws. *)
Definition ConnectionPage (params : Settled string) : Exc (Next.Response PageView) :=
  connectorId ← await params;
  mret (try_catch (Next.Rendered <$> construct connectorId) (λ error, Next.NotFound)).

End Page.

End ConnectionPage.

(* ================================================================== *)
(** ** String methods used by the navigation shell *)
(* ================================================================== *)

Module Str.

(** [s.startsWith(p)] *)
Fixpoint startsWith (s p : string) {struct p} : bool :=
  match p, s with
  | EmptyString, _ => true
  | String a p', String b s' => bool_decide (a = b) && startsWith s' p'
  | String _ _, EmptyString => false
  end.

(** [s.includes(sub)] *)
Fixpoint includes (s sub : string) : bool :=
  startsWith s sub
  || match s with
     | EmptyString => false
     | String _ s' => includes s' sub
     end.

(** [s.split(sep)] for a one-character separator: at least one part, the
    empty string splits into one empty part. *)
Fixpoint split (sep : ascii) (s : string) : list string :=
  match s with
  | EmptyString => [EmptyString]
  | String c s' =>
      if bool_decide (c = sep) then EmptyString :: split sep s'
      else match split sep s' with
           | part :: parts => String c part :: parts
           | [] => [String c EmptyString]
           end
  end.

(** [l.findIndex(P)], [None] standing for -1. *)
Fixpoint findIndex {A : Type} (P : A → bool) (l : list A) : option nat :=
  match l with
  | [] => None
  | x :: l' => if P x then Some 0 else S <$> findIndex P l'
  end.

(** The longest prefix without a slash: what [[^/]+] takes, greedily. *)
Fixpoint segment (s : string) : string :=
  match s with
  | EmptyString => EmptyString
  | String c s' => if bool_decide (c = "/"%char) then EmptyString else String c (segment s')
  end.

(** [s] has no slash. *)
Fixpoint slashless (s : string) : bool :=
  match s with
  | EmptyString => true
  | String c s' => negb (bool_decide (c = "/"%char)) && slashless s'
  end.

(** [s] without its first [n] characters. *)
Fixpoint skip (n : nat) (s : string) : string :=
  match n, s with
  | O, _ => s
  | S n', String _ s' => skip n' s'
  | S _, EmptyString => EmptyString
  end.

(** A match of [lit([^/]+)] at the start of [s]: the captured segment. *)
Definition matchHere (lit s : string) : option string :=
  if startsWith s lit then
    let captured := segment (skip (String.length lit) s) in
    if bool_decide (captured = "") then None else Some captured
  else None.

(** A match at the start of [s] of one of the alternatives, tried in
    order. *)
Fixpoint matchAny (lits : list string) (s : string) : option string :=
  match lits with
  | [] => None
  | lit :: lits' =>
      match matchHere lit s with
      | Some captured => Some captured
      | None => matchAny lits' s
      end
  end.

(** The leftmost match of [(lit1|lit2|...)([^/]+)] anywhere in [s]: the
    captured segment. *)
Fixpoint matchFirst (lits : list string) (s : string) : option string :=
  match matchAny lits s with
  | Some captured => Some captured
  | None =>
      match s with
      | EmptyString => None
      | String _ s' => matchFirst lits s'
      end
  end.

End Str.

(* ================================================================== *)
(** ** The sidebar *)
(* ================================================================== *)

Module AppSidebar.

(** [part === "client" || part === "server"] *)
Definition isMode (part : string) : bool :=
  bool_decide (part = "client") || bool_decide (part = "server").

(** The effect on [pathname]: the new [selectedConnectorId], given the
    current one.  It is set only when the segment after the first
    [client] or [server] segment is the id of a registry connector. *)
Definition syncSelection (pathname : string) (selectedConnectorId : option string)
    : option string :=
  let pathParts := Str.split "/" pathname in
  match Str.findIndex isMode pathParts with
  | Some connectorIdIndex =>
      if bool_decide (connectorIdIndex + 1 < length pathParts) then
        match pathParts !! (connectorIdIndex + 1) with
        | Some connectorId =>
            if existsb (λ c, bool_decide (connector_id c = connectorId))
                 mocked.connectors.list
            then Some connectorId
            else selectedConnectorId
        | None => selectedConnectorId
        end
      else selectedConnectorId
  | None => selectedConnectorId
  end.

Definition isResourceActive (pathname model : string) : bool :=
  Str.includes pathname ("/resources/" +:+ model).

Definition isServerMode (pathname : string) : bool :=
  Str.startsWith pathname "/server".

(** [`${selectedConnectorId}`] *)
Definition interpolate (selectedConnectorId : option string) : string :=
  match selectedConnectorId with
  | Some connectorId => connectorId
  | None => "null"
  end.

Definition baseResourcePath (pathname : string)
    (selectedConnectorId : option string) : string :=
  if isServerMode pathname
  then "/server/" +:+ interpolate selectedConnectorId +:+ "/resources"
  else "/client/" +:+ interpolate selectedConnectorId +:+ "/resources".

(** [handleConnectorChange]: the new selection and the route pushed. *)
Definition handleConnectorChange (connectorId : string) : option string * string :=
  (Some connectorId, "/server/" +:+ connectorId +:+ "/connection").

(** One entry of the resources menu. *)
Record ResourceLink := mkResourceLink {
  href : string;
  text : string;
  isActive : bool
}.

Definition resourceLinks (pathname : string) (selectedConnectorId : option string)
    : list ResourceLink :=
  (λ model,
     {| href := baseResourcePath pathname selectedConnectorId +:+ "/" +:+ model_id model;
        text := model_name model;
        isActive := isResourceActive pathname (model_id model) |})
    <$> mocked.models.list.

End AppSidebar.

(* ================================================================== *)
(** ** The top bar *)
(* ================================================================== *)

Module Topbar.

(** One breadcrumb item: the segment, and the tooltip when the segment is
    a route parameter. *)
Record Crumb := mkCrumb {
  segment : string;
  isDynamic : bool;
  tooltip : string
}.

(** [segments[i]] as a condition: there is such a segment and it is not
    the empty string. *)
Definition at_truthy (segments : list string) (i : nat) : bool :=
  match segments !! i with
  | Some s => negb (bool_decide (s = ""))
  | None => false
  end.

(** [segments[i] === s], [segments[i]] being [undefined] out of range. *)
Definition at_is (segments : list string) (i : Z) (s : string) : bool :=
  if bool_decide (0 ≤ i)%Z
  then bool_decide (segments !! Z.to_nat i = Some s)
  else false.

Definition crumb (segments : list string) (index : nat) (segment : string) : Crumb :=
  let isDynamic :=
    (at_is segments (Z.of_nat index - 1) "resources"
       && bool_decide (index = length segments - 1))
    || ((at_is segments 0 "server" || at_is segments 0 "client")
          && at_truthy segments 1
          && bool_decide (index = 1)) in
  let tooltip :=
    if isDynamic then
      if at_is segments (Z.of_nat index - 1) "resources" then "[modelId]"
      else if bool_decide (index = 1) then "[connectorId]"
      else ""
    else "" in
  {| segment := segment; isDynamic := isDynamic; tooltip := tooltip |}.

(** [Breadcrumb]: [None] is the lone "/" shown when there is no segment. *)
Definition Breadcrumb (pathname : string) : option (list Crumb) :=
  let segments := filter (λ part, part ≠ "") (Str.split "/" pathname) in
  if bool_decide (length segments = 0) then None
  else Some (imap (crumb segments) segments).

Definition isResourcePage (pathname : string) : bool :=
  Str.includes pathname "/resources/".

(** The effect on [pathname]: the new [isClientSide]. *)
Definition syncToggle (pathname : string) : bool :=
  Str.startsWith pathname "/client".

(** [`${connectorId}`] for [connectorMatch?.[2]] *)
Definition interpolate (connectorId : option string) : string :=
  match connectorId with
  | Some c => c
  | None => "undefined"
  end.

Record ToastArgs := mkToast { title : string; description : string }.

(** [handleToggleChange]: the route pushed and the toast shown, or nothing
    when the path has no [/resources/<model>] part. *)
Definition handleToggleChange (pathname : string) (checked : bool)
    : option (string * ToastArgs) :=
  let newMode := if checked then "client" else "server" in
  let modelMatch := Str.matchFirst ["/resources/"] pathname in
  let connectorMatch := Str.matchFirst ["/server/"; "/client/"] pathname in
  match modelMatch with
  | Some model =>
      let newPath := "/" +:+ newMode +:+ "/" +:+ interpolate connectorMatch
                     +:+ "/resources/" +:+ model in
      Some (newPath,
            {| title := "Switched to " +:+ (if checked then "Client-side" else "Server-side")
                        +:+ " mode";
               description := "Requests will now be processed "
                              +:+ (if checked then "client-side" else "server-side") |})
  | None => None
  end.

End Topbar.

(* ================================================================== *)
(** ** Predicates used to state invariants *)
(* ================================================================== *)

Module Invariants.

Import ClientResourceTable.

(** What the inference loop may do to a column: keep its id and header,
    and either keep its type or set it to number, boolean or date. *)
Definition inferred (column column' : Column) : Prop :=
  id column' = id column ∧ header column' = header column ∧
  (type column' = type column ∨ type column' ∈ [TNumber; TBoolean; TDate]).

End Invariants.

(* ================================================================== *)
(** ** Concrete cells, records and worlds *)
(* ================================================================== *)

Module CellExamples.

Import EditableCell.

(** Stand-ins for the platform functions, used to run the component on
    concrete cells. *)
Definition String_ (v : JsValue) : string :=
  match v with
  | VStr s => s
  | VBool true => "true"
  | VBool false => "false"
  | VUndefined => "undefined"
  | VNull => "null"
  | _ => "[object Object]"
  end.

Definition format (v : JsValue) (pattern : string) : Exc string :=
  match v with
  | VStr s => Ok s
  | _ => Throw (Error "Invalid time value")
  end.

Definition toISOString (t : Z) : string := "1970-01-01T00:00:00.000Z".

Definition always_fulfilled (v : JsValue) : Settled unit := Resolved ().

(** A boolean cell holding [true], in edit mode. *)
Definition booleanCell : Props :=
  {| p_value := VBool true; p_type := TBoolean; p_options := Some [];
     onUpdate := always_fulfilled |}.

Definition booleanEditing : State :=
  handleStartEdit booleanCell (initial booleanCell).

(** A text cell holding "Ada" in which "Bob" has been typed. *)
Definition textCell : Props :=
  {| p_value := VStr "Ada"; p_type := TText; p_options := Some [];
     onUpdate := always_fulfilled |}.

Definition textEditing : State := {| isEditing := true; editValue := VStr "Bob" |}.

End CellExamples.

Module TableExamples.

Import ClientResourceTable.

(** Stand-in for [Date.parse]: ISO days such as ["2024-01-15"]. *)
Definition Date_parsable (s : string) : bool :=
  bool_decide (String.length s = 10%nat)
  && bool_decide (String.get 4 s = Some "-"%char)
  && bool_decide (String.get 7 s = Some "-"%char).

(** [{ id: "r1", fields: { firstName: "Ada" } }] *)
Definition ada : JsObject :=
  <["id" := VStr "r1"]> (<["fields" := VObj (<["firstName" := VStr "Ada"]> ∅)]> ∅).

(** [{ id: "o1", fields: { name: "Big deal", amount: 1000 } }] *)
Definition deal : JsObject :=
  <["id" := VStr "o1"]>
    (<["fields" := VObj (<["name" := VStr "Big deal"]> (<["amount" := VNum 1000]> ∅))]> ∅).

(** A contact table that has loaded its only page, which holds [ada]. *)
Definition contactsLoaded : World :=
  mount "token" genericContact Date_parsable (Resolved (Api.ListData [ada] VNull)).

(** An opportunity table that has loaded a first page holding [deal]. *)
Definition dealsLoaded : World :=
  mount "token" crmOpportunity Date_parsable
    (Resolved (Api.ListData [deal] (VStr "cursor-1"))).

(** The cells of the rows a view shows, if it shows rows. *)
Definition shownCells (v : Exc View) : option (list (list Cell)) :=
  match v with
  | Ok (TableView _ (BodyRows cells) _ _) => Some cells
  | _ => None
  end.

(** The render that follows the first page of opportunities, and the cell
    it shows for the amount of [deal]. *)
Definition dealsRender : Render := (render crmOpportunity dealsLoaded).1.

Definition amountCell : option Cell :=
  cells ← shownCells (view "token" dealsRender);
  row ← cells !! 0%nat;
  row !! 1%nat.

(** The render that follows the only page of contacts. *)
Definition contactsRender : Render := (render genericContact contactsLoaded).1.

Definition contactsShown : World := (render genericContact contactsLoaded).2.

(** The same record after the optimistic step of an edit of its first
    name: [{ id: "r1", fields: { firstName: "Ada" }, firstName: "Bob" }]. *)
Definition adaEdited : JsObject := <["firstName" := VStr "Bob"]> ada.

End TableExamples.

Module PageExamples.

Import ServerResourcePage.

(** A service whose list call always returns an error. *)
Definition refusing (call : ListCall) : Settled Api.ListResult :=
  Resolved (Api.ListError {| Api.message := "unauthorized" |}).

(** A route with a model that is not in the registry. *)
Definition invoices : Params :=
  {| connectorId := "hubspot"; modelId := "invoice" |}.

Definition noQuery : SearchParams := {| q := None |}.

End PageExamples.

Module MoreCellExamples.

Import EditableCell CellExamples.

(** A commit callback whose promise rejects. *)
Definition always_rejected (v : JsValue) : Settled unit :=
  Rejected (Error "update failed").

(** A number cell holding 42 in which "43" has been typed. *)
Definition numberCell : Props :=
  {| p_value := VNum 42; p_type := TNumber; p_options := Some [];
     onUpdate := always_fulfilled |}.

Definition numberEditing : State :=
  {| isEditing := true; editValue := VStr "43" |}.

(** A number cell holding 0. *)
Definition zeroCell : Props :=
  {| p_value := VNum 0; p_type := TNumber; p_options := Some [];
     onUpdate := always_fulfilled |}.

(** A select cell for a stage, with two options. *)
Definition stageOptions : list SelectOption :=
  [ {| label := "Open"; value := "open" |};
    {| label := "Won"; value := "won" |} ].

Definition stageCell : Props :=
  {| p_value := VStr "won"; p_type := TSelect; p_options := Some stageOptions;
     onUpdate := always_fulfilled |}.

(** A date cell with no date yet, in edit mode. *)
Definition dateCell : Props :=
  {| p_value := VUndefined; p_type := TDate; p_options := Some [];
     onUpdate := always_fulfilled |}.

Definition dateEditing : State := handleStartEdit dateCell (initial dateCell).

End MoreCellExamples.

Module MoreTableExamples.

Import ClientResourceTable TableExamples.

(** A list call that throws. *)
Definition offline : Settled Api.ListResult := Rejected (Error "network").

(** The fields of [ada]. *)
Definition adaFields : gmap string JsValue := <["firstName" := VStr "Ada"]> ∅.

End MoreTableExamples.

Module MorePageExamples.

(** A service that returns the one contact [ada] to every list call. *)
Definition oneContact (call : ServerResourcePage.ListCall) : Settled Api.ListResult :=
  Resolved (Api.ListData [TableExamples.ada] VNull).

Definition contactsRoute : ServerResourcePage.Params :=
  {| ServerResourcePage.connectorId := "hubspot";
     ServerResourcePage.modelId := "genericContact" |}.

Definition hubspot : Connector := mkConnector "hubspot" "Hubspot".

End MorePageExamples.

(* ================================================================== *)
(** * Properties *)
(* ================================================================== *)

(** ** Editable cell *)

Section EditableCellFacts.

Import EditableCell.

Variable String_ : JsValue → string.
Variable format : JsValue → string → Exc string.
Variable toISOString : Z → string.

Lemma handleKeyDown_Escape (p : Props) (s : State) :
  handleKeyDown p "Escape" s = (handleCancel s, []).
Proof. reflexivity. Qed.

Lemma handleCancel_display (s : State) : isEditing (handleCancel s) = false.
Proof. reflexivity. Qed.

(** Once the cell is back in display mode the effect puts the prop value
    back into the edit value. *)
Lemma resetEditValue_display (p : Props) (s : State) :
  isEditing s = false → editValue (resetEditValue p s) = p_value p.
Proof. intros H. unfold resetEditValue. by rewrite H. Qed.

(** In display mode the view does not depend on the edit value. *)
Lemma render_display (p : Props) (s : State) :
  isEditing s = false →
  render String_ format p s = render String_ format p (initial p).
Proof. intros H. unfold render. by rewrite H. Qed.

(** The key handler is mounted on the text input only. *)
Lemma dispatch_KeyDown (p : Props) (s : State) (key : string) :
  isEditing s = true →
  dispatch toISOString p s (KeyDown key) =
    match widget (p_type p) with
    | WInput => Some (handleKeyDown p key s)
    | _ => None
    end.
Proof. intros H. unfold dispatch. rewrite H. by destruct (widget (p_type p)). Qed.

(** C6 (as amended).  A cell in editing mode that is edited through the
    text input (every type except select, date and boolean): whatever the
    in-progress edit value, the Escape key puts the cell back in display
    mode, makes no [onUpdate] call, and the edit value is dropped: the view
    is the one of a cell that was never edited, and the effect that follows
    resets the edit value to the prop value. *)
Theorem escape_cancels_text_edit (p : Props) (s : State) :
  isEditing s = true →
  widget (p_type p) = WInput →
  ∃ s',
    dispatch toISOString p s (KeyDown "Escape") = Some (s', []) ∧
    isEditing s' = false ∧
    render String_ format p s' = render String_ format p (initial p) ∧
    editValue (resetEditValue p s') = p_value p.
Proof.
  intros Hedit Hw. exists (handleCancel s).
  rewrite (dispatch_KeyDown _ _ _ Hedit), Hw, handleKeyDown_Escape.
  split_and!; [done | done | by apply render_display
              | by apply resetEditValue_display].
Qed.

(** C7.  A boolean cell whose value is [true]: in display mode it shows
    "Yes"; a click enters edit mode, where it shows a selector with exactly
    the options "Yes" and "No", "Yes" being selected; choosing an option
    calls [onUpdate] once with the boolean of that option and leaves edit
    mode. *)
Theorem boolean_true_cell (p : Props) (s : State) :
  p_type p = TBoolean →
  p_value p = VBool true →
  isEditing s = false →
  render String_ format p s = Ok (DisplayView (VStr "Yes")) ∧
  dispatch toISOString p s Click = Some (handleStartEdit p s, []) ∧
  render String_ format p (handleStartEdit p s)
    = Ok (SelectView "true" [("true", "Yes"); ("false", "No")]) ∧
  dispatch toISOString p (handleStartEdit p s) (ValueChange "true")
    = Some ({| isEditing := false; editValue := VBool true |}, [VBool true]) ∧
  dispatch toISOString p (handleStartEdit p s) (ValueChange "false")
    = Some ({| isEditing := false; editValue := VBool false |}, [VBool false]).
Proof.
  intros Ht Hv Hs.
  unfold render, dispatch, displayValue, handleStartEdit; simpl.
  rewrite Hs, Ht, Hv. simpl. done.
Qed.

End EditableCellFacts.

Section CellExampleFacts.

Import EditableCell CellExamples.

(** C6 as stated fails on a boolean cell in edit mode: no key handler is
    mounted, so the Escape key changes nothing, and every handler that is
    mounted and leaves edit mode calls [onUpdate]. *)
Lemma escape_ignored_by_boolean_cell :
  isEditing booleanEditing = true ∧
  dispatch toISOString booleanCell booleanEditing (KeyDown "Escape") = None ∧
  ¬ (∃ s', dispatch toISOString booleanCell booleanEditing (KeyDown "Escape")
             = Some (s', []) ∧ isEditing s' = false) ∧
  (∀ ev s' calls,
     dispatch toISOString booleanCell booleanEditing ev = Some (s', calls) →
     isEditing s' = false → calls ≠ []).
Proof.
  split; [reflexivity |]. split; [reflexivity |]. split.
  - intros (s' & H & _). discriminate H.
  - intros ev s' calls H _.
    unfold dispatch, booleanEditing, booleanCell, handleStartEdit in H.
    destruct ev; simpl in H; simplify_eq.
    intros Hc. discriminate Hc.
Qed.

(** Escape in a text cell showing "Ada" where "Bob" has been typed. *)
Lemma escape_cancels_text_edit_witness :
  ∃ s',
    dispatch toISOString textCell textEditing (KeyDown "Escape") = Some (s', []) ∧
    isEditing s' = false ∧
    render String_ format textCell s' = render String_ format textCell (initial textCell) ∧
    editValue (resetEditValue textCell s') = VStr "Ada".
Proof.
  apply (escape_cancels_text_edit String_ format toISOString textCell textEditing);
    reflexivity.
Defined.

(** The boolean cell holding [true], from its first render on. *)
Lemma boolean_true_cell_witness :
  render String_ format booleanCell (initial booleanCell) = Ok (DisplayView (VStr "Yes")) ∧
  dispatch toISOString booleanCell (initial booleanCell) Click = Some (booleanEditing, []) ∧
  render String_ format booleanCell booleanEditing
    = Ok (SelectView "true" [("true", "Yes"); ("false", "No")]) ∧
  dispatch toISOString booleanCell booleanEditing (ValueChange "true")
    = Some ({| isEditing := false; editValue := VBool true |}, [VBool true]) ∧
  dispatch toISOString booleanCell booleanEditing (ValueChange "false")
    = Some ({| isEditing := false; editValue := VBool false |}, [VBool false]).
Proof.
  apply (boolean_true_cell String_ format toISOString booleanCell (initial booleanCell));
    reflexivity.
Defined.

End CellExampleFacts.

(** ** Client resource table *)

Section TableFacts.

Import ClientResourceTable.

Variable sessionToken : string.
Variable modelDetails : Model.
Variable Date_parsable : string → bool.

Abbreviation loadResources := (loadResources modelDetails Date_parsable).
Abbreviation loadResources_request := (loadResources_request modelDetails).
Abbreviation loadResources_resume := (loadResources_resume modelDetails Date_parsable).
Abbreviation inferTypes := (inferTypes modelDetails Date_parsable).
Abbreviation listParams := (listParams modelDetails).
Abbreviation render := (render modelDetails).

(** *** Effects added to the log *)

Lemma issued_app (before after : World) (new : list Effect) :
  log after = log before ++ new → issued before after = new.
Proof. intros H. unfold issued. rewrite H. apply drop_app_length. Qed.

(** *** Reading fields off well-formed records *)

Lemma get_of_hasFields (item : JsObject) (k : string) :
  hasFields item = true → ∃ v, get (prop item "fields") k = Ok v.
Proof.
  unfold hasFields. destruct (prop item "fields"); simpl; try done; eauto.
  case_bool_decide; eauto.
Qed.

Lemma inferItem_completes (item : JsObject) (fs : list Field) (cols : list Column) :
  hasFields item = true →
  ∃ cols', forEach (inferField Date_parsable item) fs cols = (cols', None).
Proof.
  intros Hitem. revert cols.
  induction fs as [|f fs IH]; intros cols; simpl; [eauto|].
  unfold inferField at 1.
  destruct (get_of_hasFields item (field_id f) Hitem) as [v ->].
  destruct (negb (is_undefined v)); apply IH.
Qed.

(** The inference loop runs to its end on a batch of records. *)
Lemma inferTypes_completes (data : list JsObject) (cols : list Column) :
  Forall (λ item, hasFields item = true) data →
  ∃ cols', inferTypes data cols = (cols', None).
Proof.
  intros Hdata. revert cols. unfold ClientResourceTable.inferTypes.
  induction Hdata as [|item data Hitem _ IH]; intros cols; simpl; [eauto|].
  destruct (inferItem_completes item (model_fields modelDetails) cols Hitem)
    as [cols1 ->].
  apply IH.
Qed.

(** *** What a call of [loadResources] leaves behind *)

Lemma loadResources_data (lr : LoadResources) (isLoadMore : bool)
    (data : list JsObject) (next : JsValue) (w : World) :
  Forall (λ item, hasFields item = true) data →
  state (loadResources lr isLoadMore (Resolved (Api.ListData data next)) w) =
    {| search := search (state w);
       debouncedSearch := debouncedSearch (state w);
       rows := if isLoadMore then rows (state w) ++ data else data;
       cursor := Js.or next VUndefined;
       hasMore := negb (is_null next);
       loading := false; loadingMore := false; initialLoad := false |}.
Proof.
  intros Hdata.
  unfold ClientResourceTable.loadResources, ClientResourceTable.loadResources_resume.
  destruct (inferTypes_completes data
    (readColumns (lr_allColumns lr) (loadResources_request lr isLoadMore w)) Hdata)
    as [cols ->].
  by destruct isLoadMore.
Qed.

(** Whatever the answer, a call of [loadResources] with [isLoadMore] keeps
    every row that was there, in place. *)
Lemma loadResources_more_keeps (lr : LoadResources)
    (response : Settled Api.ListResult) (w : World) :
  rows (state w) `prefix_of` rows (state (loadResources lr true response w)).
Proof.
  unfold ClientResourceTable.loadResources, ClientResourceTable.loadResources_resume.
  destruct response as [[data next| err] | e]; simpl; try done.
  destruct (inferTypes _ _) as [cols [e|]]; simpl; [done|].
  by apply prefix_app_r.
Qed.

(** C3.  A load-more call that gets a batch of records back leaves the old
    rows followed by the batch; and however a load-more call ends, the old
    rows stay where they were.  A call that is not a load-more (initial
    load, new search) replaces the rows by the batch. *)
Theorem load_more_appends (lr : LoadResources) (data : list JsObject)
    (next : JsValue) (w : World) :
  Forall (λ item, hasFields item = true) data →
  rows (state (loadResources lr true (Resolved (Api.ListData data next)) w))
    = rows (state w) ++ data ∧
  (∀ response,
     rows (state w) `prefix_of` rows (state (loadResources lr true response w))) ∧
  rows (state (loadResources lr false (Resolved (Api.ListData data next)) w))
    = data.
Proof.
  intros Hdata. split_and!.
  - by rewrite loadResources_data.
  - intros response. apply loadResources_more_keeps.
  - by rewrite loadResources_data.
Qed.

(** C4.  A click on "Load More" when no further page exists, or while a
    load-more is in flight, does nothing at all: no request, no change of
    state. *)
Theorem handleLoadMore_guarded (r : Render) (response : Settled Api.ListResult)
    (w : World) :
  hasMore (seen r) = false ∨ loadingMore (seen r) = true →
  handleLoadMore modelDetails Date_parsable r response w = w ∧
  issued w (handleLoadMore modelDetails Date_parsable r response w) = [].
Proof.
  intros H.
  assert (Hw : handleLoadMore modelDetails Date_parsable r response w = w).
  { destruct H as [H|H]; unfold handleLoadMore; rewrite H; [done|].
    by rewrite andb_false_r. }
  rewrite Hw. split; [done|]. apply issued_app. by rewrite app_nil_r.
Qed.

(** With the guard open the click runs the load-more fetch. *)
Lemma handleLoadMore_open (r : Render) (response : Settled Api.ListResult)
    (w : World) :
  hasMore (seen r) = true → loadingMore (seen r) = false →
  handleLoadMore modelDetails Date_parsable r response w
    = loadResources (callback r) true response w ∧
  ∃ rest, log (handleLoadMore modelDetails Date_parsable r response w)
    = log w ++ ListCall (listParams (callback r) true) :: rest.
Proof.
  intros H1 H2. unfold handleLoadMore. rewrite H1, H2. simpl. split; [done|].
  unfold ClientResourceTable.loadResources, ClientResourceTable.loadResources_resume.
  destruct response as [[data next| err] | e]; simpl;
    try (eexists; by rewrite <- app_assoc).
  destruct (inferTypes _ _) as [cols [e|]]; simpl.
  - eexists. by rewrite <- app_assoc.
  - exists []. done.
Qed.

(** C9.  After a list fetch that returned records, [hasMore] is true
    exactly when [next] is not [null], and the cursor is [next] when that
    is truthy and [undefined] otherwise; with [next] undefined, [hasMore]
    is true and the cursor is [undefined]. *)
Theorem cursor_and_hasMore_after_fetch (lr : LoadResources) (isLoadMore : bool)
    (data : list JsObject) (next : JsValue) (w : World) :
  Forall (λ item, hasFields item = true) data →
  let w' := loadResources lr isLoadMore (Resolved (Api.ListData data next)) w in
  (hasMore (state w') = true ↔ next ≠ VNull) ∧
  cursor (state w') = (if truthy next then next else VUndefined) ∧
  (next = VUndefined → hasMore (state w') = true ∧ cursor (state w') = VUndefined).
Proof.
  intros Hdata w'. subst w'. rewrite loadResources_data by done. simpl.
  split_and!.
  - destruct next; simpl; split; intros H; congruence.
  - done.
  - by intros ->.
Qed.

(** *** The search term of a request *)

(** The callback a render hands out was created with the debounced search
    term that render sees. *)
Lemma render_callback_search (w : World) :
  lr_debouncedSearch (callback (render w).1) = debouncedSearch (state w).
Proof.
  unfold ClientResourceTable.render, useCallback; simpl.
  destruct (memo w) as [old|]; [|done].
  by case_bool_decide.
Qed.

Lemma render_seen (w : World) : seen (render w).1 = state w.
Proof. done. Qed.

Lemma listParams_q (lr : LoadResources) (isLoadMore : bool) :
  Api.q (listParams lr isLoadMore) =
    if bool_decide (lr_debouncedSearch lr = "") then None
    else Some (lr_debouncedSearch lr).
Proof.
  unfold ClientResourceTable.listParams; cbn [Api.q].
  destruct (lr_debouncedSearch lr) as [|c s]; cbn [String.length].
  - rewrite bool_decide_eq_false_2 by lia. done.
  - rewrite bool_decide_eq_true_2 by lia. done.
Qed.

(** *** The effects of the handlers *)

(** Membership of a request in an explicit list of effects. *)
Ltac requests_of_log :=
  let params := fresh "params" in
  let Hin := fresh "Hin" in
  intros params Hin;
  repeat (apply elem_of_cons in Hin; destruct Hin as [Hin|Hin];
          [first [discriminate Hin | congruence]|]);
  by apply elem_of_nil in Hin.

(** A call of [loadResources] issues one request, with the parameters of
    the callback, and at most an error toast after it. *)
Lemma loadResources_log (lr : LoadResources) (isLoadMore : bool)
    (response : Settled Api.ListResult) (w : World) :
  log (loadResources lr isLoadMore response w)
    = log w ++ [ListCall (listParams lr isLoadMore)] ∨
  log (loadResources lr isLoadMore response w)
    = log w ++ [ListCall (listParams lr isLoadMore); Toast toastLoadError].
Proof.
  unfold ClientResourceTable.loadResources, ClientResourceTable.loadResources_resume.
  destruct response as [[data next| err] | e]; simpl;
    try (right; destruct isLoadMore; simpl; by rewrite <- app_assoc).
  destruct (inferTypes _ _) as [cols [e|]]; simpl.
  - right. destruct isLoadMore; simpl; by rewrite <- app_assoc.
  - left. by destruct isLoadMore.
Qed.

Lemma handleCellUpdate_error_result (r : Render) (rowId columnId : string)
    (value : JsValue) (error : Api.ApiError) (reload : Settled Api.ListResult)
    (w : World) :
  let w' := handleCellUpdate modelDetails Date_parsable r rowId columnId value
              (Resolved (Api.UpdateError error)) reload w in
  log w' = log w ++ [UpdateCall rowId {[ columnId := value ]}; Toast toastUpdateError] ∧
  rows (state w') = optimistic rowId columnId value <$> rows (state w).
Proof. simpl. by rewrite <- app_assoc. Qed.

Lemma handleCellUpdate_done (r : Render) (rowId columnId : string)
    (value : JsValue) (reload : Settled Api.ListResult) (w : World) :
  let w' := handleCellUpdate modelDetails Date_parsable r rowId columnId value
              (Resolved Api.UpdateDone) reload w in
  log w' = log w ++ [UpdateCall rowId {[ columnId := value ]};
                     Toast (toastValueUpdated rowId columnId)] ∧
  rows (state w') =
    confirmed rowId columnId value <$> (optimistic rowId columnId value <$> rows (state w)).
Proof. simpl. by rewrite <- app_assoc. Qed.

(** When the update call throws, the [catch] block reloads: one request
    for the first page, the "Update failed" toast, and the rows are
    replaced by what the reload returns. *)
Lemma handleCellUpdate_rejected (r : Render) (rowId columnId : string)
    (value : JsValue) (e : JsError) (data : list JsObject) (next : JsValue)
    (w : World) :
  Forall (λ item, hasFields item = true) data →
  let w' := handleCellUpdate modelDetails Date_parsable r rowId columnId value
              (Rejected e) (Resolved (Api.ListData data next)) w in
  log w' = log w ++ [UpdateCall rowId {[ columnId := value ]};
                     ListCall (listParams (callback r) false);
                     Toast toastUpdateFailed] ∧
  rows (state w') = data.
Proof.
  intros Hdata. simpl.
  unfold ClientResourceTable.loadResources_resume.
  match goal with |- context [inferTypes data ?c] =>
    destruct (inferTypes_completes data c Hdata) as [cols ->] end.
  simpl. by rewrite <- !app_assoc.
Qed.

Lemma handleCellUpdate_log (r : Render) (rowId columnId : string)
    (value : JsValue) (update : Settled Api.UpdateResult)
    (reload : Settled Api.ListResult) (w : World) :
  ∃ new,
    log (handleCellUpdate modelDetails Date_parsable r rowId columnId value update reload w)
      = log w ++ new ∧
    ∀ params, ListCall params ∈ new → params = listParams (callback r) false.
Proof.
  destruct update as [[|err]|e].
  - eexists. split; [apply handleCellUpdate_done|]. requests_of_log.
  - eexists. split; [apply handleCellUpdate_error_result|]. requests_of_log.
  - unfold handleCellUpdate, ClientResourceTable.loadResources_resume.
    destruct reload as [[data next| err] | e']; simpl;
      try (eexists; split; [by rewrite <- !app_assoc | requests_of_log]).
    destruct (inferTypes _ _) as [cols [e'|]]; simpl;
      eexists; (split; [by rewrite <- !app_assoc | requests_of_log]).
Qed.

(** C10.  Every list request that the handlers of a render issue (the
    load effect, a click on "Load More", the reload after an update that
    threw) has [q] equal to the debounced search term of that render when
    the term is not empty, and has no [q] when it is empty. *)
Theorem list_requests_carry_search_term (w : World)
    (response reload : Settled Api.ListResult)
    (rowId columnId : string) (value : JsValue)
    (update : Settled Api.UpdateResult) :
  let r := (render w).1 in
  let w1 := (render w).2 in
  Forall (carries_search_term (state w))
    (issued w1 (loadEffect sessionToken modelDetails Date_parsable r response w1)) ∧
  Forall (carries_search_term (state w))
    (issued w1 (handleLoadMore modelDetails Date_parsable r response w1)) ∧
  Forall (carries_search_term (state w))
    (issued w1 (handleCellUpdate modelDetails Date_parsable r rowId columnId
                  value update reload w1)).
Proof.
  intros r w1.
  assert (Hq : ∀ b, Api.q (listParams (callback r) b) = search_term (state w)).
  { intros b. rewrite listParams_q. subst r. by rewrite render_callback_search. }
  assert (Hload : ∀ b w0 w2,
    log w0 = log w2 →
    Forall (carries_search_term (state w))
      (issued w0 (loadResources (callback r) b response w2))).
  { intros b w0 w2 Hlog.
    destruct (loadResources_log (callback r) b response w2) as [H|H];
      rewrite <- Hlog in H; rewrite (issued_app _ _ _ H);
      repeat constructor; apply Hq. }
  split_and!.
  - unfold loadEffect. case_bool_decide; simpl.
    + unfold issued. rewrite drop_all. constructor.
    + by apply Hload.
  - unfold handleLoadMore.
    destruct (hasMore (seen r) && negb (loadingMore (seen r))).
    + by apply Hload.
    + unfold issued. rewrite drop_all. constructor.
  - destruct (handleCellUpdate_log r rowId columnId value update reload w1)
      as (new & Hlog & Hnew).
    rewrite (issued_app _ _ _ Hlog). apply Forall_forall.
    intros [t|params|? ?] Hin; simpl; try done.
    rewrite (Hnew _ Hin). apply Hq.
Qed.

(** *** Column types *)

(** What the inference does with one observed value. *)
Lemma inferType_cases (value : JsValue) (column : Column) :
  type (inferType Date_parsable value column) =
    match value with
    | VNum _ => TNumber
    | VBool _ => TBoolean
    | VDate _ => TDate
    | VStr s => if Date_parsable s then TDate else type column
    | _ => type column
    end.
Proof.
  unfold inferType. destruct value; simpl; try done.
  by destruct (Date_parsable _).
Qed.

(** Every render starts from columns of type "text". *)
Lemma allColumns_text :
  Forall (λ column, type column = TText) (allColumns modelDetails).
Proof. unfold allColumns. apply Forall_fmap. by apply Forall_true. Qed.

(** The cells a render produces take their type from the columns that
    render has just built, hence "text", whatever was loaded before. *)
Lemma rendered_cells_text (w : World) (row : JsObject) (cells : list Cell) :
  rowCells (render w).1 row = Ok cells →
  Forall (λ c, cell_type c = TText) cells.
Proof.
  unfold rowCells. simpl. generalize allColumns_text.
  generalize (allColumns modelDetails). intros cols Hcols. revert cells.
  induction Hcols as [|column cols Hc _ IH]; intros cells; simpl.
  - intros [= <-]. constructor.
  - destruct (get (prop row "fields") (id column)) as [v|e]; simpl; [|done].
    destruct (mapM _ cols) as [cells'|e] eqn:Hm; simpl; [|done].
    intros [= <-]. constructor; [done|]. by apply IH.
Qed.

End TableFacts.

Section UpdateFacts.

Import ClientResourceTable.

(** No field of a registry model is called "fields" or "id". *)
Lemma registry_field_ids (m : Model) (f : Field) :
  m ∈ MODELS → f ∈ model_fields m →
  field_id f ≠ "fields" ∧ field_id f ≠ "id".
Proof.
  assert (H : Forall (λ m, Forall (λ f, field_id f ≠ "fields" ∧ field_id f ≠ "id")
                             (model_fields m)) MODELS).
  { repeat constructor; discriminate. }
  intros Hm Hf.
  rewrite Forall_forall in H. specialize (H m Hm).
  rewrite Forall_forall in H. by apply H.
Qed.

Lemma optimistic_fields (rowId columnId : string) (value : JsValue) (row : JsObject) :
  columnId ≠ "fields" →
  prop (optimistic rowId columnId value row) "fields" = prop row "fields".
Proof.
  intros Hne. unfold optimistic.
  destruct (strict_eq_string _ _); [|done].
  unfold prop. by rewrite lookup_insert_ne.
Qed.

Lemma optimistic_id (rowId columnId : string) (value : JsValue) (row : JsObject) :
  columnId ≠ "id" →
  prop (optimistic rowId columnId value row) "id" = prop row "id".
Proof.
  intros Hne. unfold optimistic.
  destruct (strict_eq_string _ _); [|done].
  unfold prop. by rewrite lookup_insert_ne.
Qed.

Lemma optimistic_top_level (rowId columnId : string) (value : JsValue) (row : JsObject) :
  strict_eq_string (prop row "id") rowId = true →
  prop (optimistic rowId columnId value row) columnId = value.
Proof.
  intros Hid. unfold optimistic. rewrite Hid.
  unfold prop. by rewrite lookup_insert_eq.
Qed.

Lemma confirmed_fields (rowId columnId : string) (value : JsValue) (row : JsObject) :
  strict_eq_string (prop row "id") rowId = true →
  get (prop (confirmed rowId columnId value row) "fields") columnId = Ok value.
Proof.
  intros Hid. unfold confirmed. rewrite Hid.
  unfold prop at 1. rewrite lookup_insert_eq. simpl.
  by rewrite lookup_insert_eq.
Qed.

(** C8.  A cell update of a column of a registry model: the optimistic
    step leaves [row.fields] of every row as it was, so the cells rendered
    for the row are the same as before, and in the row with the given id it
    writes the value to the top-level property [row[columnId]]; when the
    update call returns an error that is all that happens to the rows;
    when it returns without error the rows go through the second step,
    after which [row.fields[columnId]] of that row is the new value. *)
Theorem optimistic_update_spares_fields (m : Model) (f : Field)
    (Date_parsable : string → bool) (r : Render) (rowId : string)
    (value : JsValue) (error : Api.ApiError) (reload : Settled Api.ListResult)
    (w : World) :
  m ∈ MODELS →
  f ∈ model_fields m →
  let columnId := field_id f in
  (∀ row,
     prop (optimistic rowId columnId value row) "fields" = prop row "fields" ∧
     (∀ r', rowCells r' (optimistic rowId columnId value row) = rowCells r' row) ∧
     (strict_eq_string (prop row "id") rowId = true →
        prop (optimistic rowId columnId value row) columnId = value ∧
        get (prop (confirmed rowId columnId value
                     (optimistic rowId columnId value row)) "fields") columnId
          = Ok value)) ∧
  rows (state (handleCellUpdate m Date_parsable r rowId columnId value
                 (Resolved (Api.UpdateError error)) reload w))
    = optimistic rowId columnId value <$> rows (state w) ∧
  rows (state (handleCellUpdate m Date_parsable r rowId columnId value
                 (Resolved Api.UpdateDone) reload w))
    = confirmed rowId columnId value
        <$> (optimistic rowId columnId value <$> rows (state w)).
Proof.
  intros Hm Hf columnId.
  destruct (registry_field_ids m f Hm Hf) as [Hfields Hid].
  split_and!; [|done|done].
  intros row. split_and!.
  - by apply optimistic_fields.
  - intros r'. unfold rowCells.
    by rewrite optimistic_fields, optimistic_id.
  - intros Hrow. split; [by apply optimistic_top_level|].
    apply confirmed_fields. by rewrite optimistic_id.
Qed.

End UpdateFacts.

(** ** Server resource page *)

Section ServerPageFacts.

Import ServerResourcePage.

Variable morph_list : ListCall → Settled Api.ListResult.

Lemma Fails_throws (params : Settled Params) (searchParams : Settled SearchParams) :
  Fails morph_list params searchParams →
  ∃ e, construct morph_list params searchParams = Throw e.
Proof.
  intros [p sp -> -> Hm | p sp m e -> -> Hm Hl | p sp m err -> -> Hm Hl | e He];
    unfold construct; simpl; try rewrite Hm; simpl; try rewrite Hl; simpl; eauto.
Qed.

(** C5.  When the model is not in the registry, when the list call throws
    or returns an error, and when anything else thrown while the page is
    built, the page answers not-found. *)
Theorem failure_renders_not_found (params : Settled Params)
    (searchParams : Settled SearchParams) :
  Fails morph_list params searchParams →
  ServerResourcePage morph_list params searchParams = Next.NotFound.
Proof.
  intros H. destruct (Fails_throws _ _ H) as [e He].
  unfold ServerResourcePage. by rewrite He.
Qed.

(** The page is rendered exactly when its construction ends normally. *)
Lemma rendered_iff_constructed (params : Settled Params)
    (searchParams : Settled SearchParams) (v : PageView) :
  ServerResourcePage morph_list params searchParams = Next.Rendered v ↔
  construct morph_list params searchParams = Ok v.
Proof.
  unfold ServerResourcePage.
  destruct (construct _ _ _) as [v'|e]; simpl; split; intros H; by simplify_eq.
Qed.

End ServerPageFacts.

(** ** The handlers on concrete tables *)

Section TableExampleFacts.

Import ClientResourceTable TableExamples.

(** C1, on the code.  A contact table showing [ada]; her first name is
    edited to "Bob" and the update call returns an error result.  The
    handler issues the update call and the error toast and nothing else: no
    list request, and the row keeps the property written by the optimistic
    step.  When the same call throws instead, the rows are reloaded. *)
Theorem update_error_result_does_not_reload :
  let edit := handleCellUpdate genericContact Date_parsable contactsRender
                "r1" "firstName" (VStr "Bob") in
  let reload := Resolved (Api.ListData [ada] VNull) in
  let refused := edit (Resolved (Api.UpdateError {| Api.message := "rejected" |}))
                   reload contactsShown in
  let thrown := edit (Rejected (Error "network")) reload contactsShown in
  rows (state contactsShown) = [ada] ∧
  issued contactsShown refused
    = [UpdateCall "r1" {[ "firstName" := VStr "Bob" ]}; Toast toastUpdateError] ∧
  rows (state refused) = [adaEdited] ∧
  adaEdited ≠ ada ∧
  issued contactsShown thrown
    = [UpdateCall "r1" {[ "firstName" := VStr "Bob" ]};
       ListCall (listParams genericContact (callback contactsRender) false);
       Toast toastUpdateFailed] ∧
  rows (state thrown) = [ada].
Proof.
  simpl. split_and!; try reflexivity.
  intros H. apply (f_equal (λ row : JsObject, row !! "firstName")) in H.
  vm_compute in H. discriminate H.
Qed.

(** C2, on the code.  An opportunity table loads a first page in which
    [amount] is the number 1000.  The array of columns that the load
    callback holds gets type "number" for that column, but the render that
    follows builds its columns anew: the cell of the amount is handed type
    "text" and is edited through a text box. *)
Theorem inferred_type_is_not_rendered :
  memo dealsLoaded
    = Some {| lr_debouncedSearch := ""; lr_cursor := VUndefined; lr_allColumns := 0 |} ∧
  (λ column, (id column, type column)) <$> readColumns 0 dealsLoaded
    = [("name", TText); ("amount", TNumber); ("stage", TText); ("pipeline", TText);
       ("fld_journeybee_lead__c", TText); ("fld_journeybee_partner__c", TText)] ∧
  amountCell
    = Some {| cell_value := VNum 1000; cell_type := TText;
              cell_rowId := VStr "o1"; cell_columnId := "amount" |} ∧
  (λ c, EditableCell.render CellExamples.String_ CellExamples.format (cellProps c)
          (EditableCell.handleStartEdit (cellProps c)
             (EditableCell.initial (cellProps c)))) <$> amountCell
    = Some (Ok (EditableCell.InputView "text" (VNum 1000))).
Proof. split_and!; reflexivity. Qed.

(** A second page holding [deal] once more, after the first. *)
Lemma load_more_appends_witness :
  rows (state (loadResources crmOpportunity Date_parsable (callback dealsRender) true
                 (Resolved (Api.ListData [deal] VNull)) dealsLoaded))
    = rows (state dealsLoaded) ++ [deal] ∧
  (∀ response,
     rows (state dealsLoaded) `prefix_of`
       rows (state (loadResources crmOpportunity Date_parsable (callback dealsRender)
                      true response dealsLoaded))) ∧
  rows (state (loadResources crmOpportunity Date_parsable (callback dealsRender) false
                 (Resolved (Api.ListData [deal] VNull)) dealsLoaded))
    = [deal].
Proof.
  apply (load_more_appends crmOpportunity Date_parsable (callback dealsRender)
           [deal] VNull dealsLoaded).
  repeat constructor.
Defined.

(** The contact table has no further page: the click does nothing. *)
Lemma handleLoadMore_guarded_witness :
  handleLoadMore genericContact Date_parsable contactsRender
    (Resolved (Api.ListData [ada] VNull)) contactsShown = contactsShown ∧
  issued contactsShown
    (handleLoadMore genericContact Date_parsable contactsRender
       (Resolved (Api.ListData [ada] VNull)) contactsShown) = [].
Proof.
  apply (handleLoadMore_guarded genericContact Date_parsable contactsRender).
  left. reflexivity.
Defined.

(** A page that comes back without [next]. *)
Lemma cursor_and_hasMore_after_fetch_witness :
  let w' := loadResources crmOpportunity Date_parsable (callback dealsRender) true
              (Resolved (Api.ListData [deal] VUndefined)) dealsLoaded in
  (hasMore (state w') = true ↔ VUndefined ≠ VNull) ∧
  cursor (state w') = (if truthy VUndefined then VUndefined else VUndefined) ∧
  (VUndefined = VUndefined → hasMore (state w') = true ∧ cursor (state w') = VUndefined).
Proof.
  apply (cursor_and_hasMore_after_fetch crmOpportunity Date_parsable
           (callback dealsRender) true [deal] VUndefined dealsLoaded).
  repeat constructor.
Defined.

(** The edit of the first name of a contact. *)
Lemma optimistic_update_spares_fields_witness :
  let columnId := "firstName" in
  (∀ row,
     prop (optimistic "r1" columnId (VStr "Bob") row) "fields" = prop row "fields" ∧
     (∀ r', rowCells r' (optimistic "r1" columnId (VStr "Bob") row) = rowCells r' row) ∧
     (strict_eq_string (prop row "id") "r1" = true →
        prop (optimistic "r1" columnId (VStr "Bob") row) columnId = VStr "Bob" ∧
        get (prop (confirmed "r1" columnId (VStr "Bob")
                     (optimistic "r1" columnId (VStr "Bob") row)) "fields") columnId
          = Ok (VStr "Bob"))) ∧
  rows (state (handleCellUpdate genericContact Date_parsable contactsRender
                 "r1" columnId (VStr "Bob")
                 (Resolved (Api.UpdateError {| Api.message := "rejected" |}))
                 (Resolved (Api.ListData [ada] VNull)) contactsShown))
    = optimistic "r1" columnId (VStr "Bob") <$> rows (state contactsShown) ∧
  rows (state (handleCellUpdate genericContact Date_parsable contactsRender
                 "r1" columnId (VStr "Bob") (Resolved Api.UpdateDone)
                 (Resolved (Api.ListData [ada] VNull)) contactsShown))
    = confirmed "r1" columnId (VStr "Bob")
        <$> (optimistic "r1" columnId (VStr "Bob") <$> rows (state contactsShown)).
Proof.
  apply (optimistic_update_spares_fields genericContact (mkField "firstName" "First Name")
           Date_parsable contactsRender "r1" (VStr "Bob")).
  - apply list_elem_of_here.
  - apply list_elem_of_here.
Defined.

End TableExampleFacts.

Section PageExampleFacts.

Import ServerResourcePage PageExamples.

(** A route to a model the registry does not have. *)
Lemma failure_renders_not_found_witness :
  ServerResourcePage refusing (Resolved invoices) (Resolved noQuery) = Next.NotFound.
Proof.
  apply (failure_renders_not_found refusing (Resolved invoices) (Resolved noQuery)).
  apply (model_not_found refusing _ _ invoices noQuery); reflexivity.
Defined.

End PageExampleFacts.

(* ================================================================== *)
(** * Further properties *)
(* ================================================================== *)

(** ** Editable cell: the other handlers *)

Section EditableCellHandlers.

Import EditableCell.

Variable String_ : JsValue → string.
Variable format : JsValue → string → Exc string.
Variable toISOString : Z → string.

(** A select, date or boolean cell in edit mode has no way back that does
    not commit: every event it handles leaves edit mode and calls
    [onUpdate] exactly once, with the value that has become the edit
    value. *)
Theorem discrete_widget_commits_on_exit (p : Props) (s s' : State) (ev : Event)
    (calls : list JsValue) :
  isEditing s = true →
  widget (p_type p) ≠ WInput →
  dispatch toISOString p s ev = Some (s', calls) →
  isEditing s' = false ∧ calls = [editValue s'].
Proof.
  intros Hedit Hw. unfold dispatch. rewrite Hedit.
  destruct (widget (p_type p)); [| | |done];
    destruct ev; intros H; by simplify_eq.
Qed.

(** Enter and loss of focus in the text input call [onUpdate] exactly once
    with the edit value; the cell leaves edit mode when the promise of the
    callback is fulfilled and stays in edit mode, edit value kept, when it
    is rejected. *)
Theorem enter_and_blur_commit (p : Props) (s : State) (ev : Event) :
  isEditing s = true →
  widget (p_type p) = WInput →
  ev = KeyDown "Enter" ∨ ev = Blur →
  ∃ s',
    dispatch toISOString p s ev = Some (s', [editValue s]) ∧
    editValue s' = editValue s ∧
    isEditing s' = match onUpdate p (editValue s) with
                   | Resolved _ => false
                   | Rejected _ => true
                   end.
Proof.
  intros Hedit Hw Hev. exists (handleSave p s).1.
  assert (Hd : dispatch toISOString p s ev = Some (handleSave p s)).
  { unfold dispatch. rewrite Hedit, Hw. by destruct Hev as [-> | ->]. }
  rewrite Hd. unfold handleSave.
  destruct (onUpdate p (editValue s)) as [[]|e]; simpl; by rewrite ?Hedit.
Qed.

(** What is typed into the input is committed as a string, also in a
    number cell: typing [text] and pressing Enter calls [onUpdate] with the
    string [text], whatever was in the input before. *)
Theorem typed_text_is_committed_as_string (p : Props) (s : State) (text : string) :
  isEditing s = true →
  widget (p_type p) = WInput →
  ∃ s1 s2,
    dispatch toISOString p s (Change text) = Some (s1, []) ∧
    isEditing s1 = true ∧
    dispatch toISOString p s1 (KeyDown "Enter") = Some (s2, [VStr text]).
Proof.
  intros Hedit Hw.
  exists (setEditValue (VStr text) s), (handleSave p (setEditValue (VStr text) s)).1.
  unfold dispatch. simpl. rewrite Hedit, Hw. split_and!; [done..|].
  unfold handleKeyDown, handleSave. simpl.
  by destruct (onUpdate p (VStr text)) as [[]|e].
Qed.

(** A cancelled edit leaves nothing behind: after Escape, the next click
    opens the editor on the prop value, not on what had been typed. *)
Theorem reopened_editor_starts_from_value (p : Props) (s : State) :
  isEditing s = true →
  widget (p_type p) = WInput →
  ∃ s1,
    dispatch toISOString p s (KeyDown "Escape") = Some (s1, []) ∧
    dispatch toISOString p s1 Click
      = Some ({| isEditing := true; editValue := p_value p |}, []).
Proof.
  intros Hedit Hw. exists (handleCancel s).
  unfold dispatch. rewrite Hedit, Hw. done.
Qed.

(** In display mode the only event the cell handles is the click, and the
    click calls nothing: no handler can commit from display mode. *)
Theorem display_mode_never_commits (p : Props) (s s' : State) (ev : Event)
    (calls : list JsValue) :
  isEditing s = false →
  dispatch toISOString p s ev = Some (s', calls) →
  ev = Click ∧ calls = [] ∧ isEditing s' = true ∧ editValue s' = p_value p.
Proof.
  intros Hs. unfold dispatch. rewrite Hs.
  destruct ev; intros H; by simplify_eq.
Qed.

(** Cells of the plain types (text, number, email, url, phone) show a falsy
    value (0, the empty string, [false], [null], [undefined]) as "-", and
    any other value as it is. *)
Theorem plain_cell_hides_falsy_values (p : Props) (s : State) :
  isEditing s = false →
  widget (p_type p) = WInput →
  render String_ format p s
    = Ok (DisplayView (if truthy (p_value p) then p_value p else VStr "-")).
Proof.
  intros Hs Hw. unfold render, displayValue. rewrite Hs.
  destruct (p_type p); try done.
Qed.

(** A select cell shows the label of the first option whose value is the
    cell value, when that label is not empty. *)
Theorem select_cell_shows_label (p : Props) (s : State) (os : list SelectOption)
    (o : SelectOption) :
  p_type p = TSelect →
  isEditing s = false →
  p_options p = Some os →
  List.find (λ o, strict_eq_string (p_value p) (value o)) os = Some o →
  label o ≠ "" →
  render String_ format p s = Ok (DisplayView (VStr (label o))).
Proof.
  intros Ht Hs Hos Hfind Hlabel. unfold render, displayValue.
  rewrite Hs, Ht, Hos. simpl. rewrite Hfind. unfold Js.or. simpl.
  rewrite bool_decide_eq_false_2 by done. simpl.
  rewrite bool_decide_eq_false_2 by done. done.
Qed.

(** The calendar always commits a string: the ISO string of the picked
    day, and the empty string when the day is unpicked. *)
Theorem calendar_commits_a_string (p : Props) (s : State) (date : option Z) :
  p_type p = TDate →
  isEditing s = true →
  let text := match date with Some d => toISOString d | None => "" end in
  dispatch toISOString p s (CalendarSelect date)
    = Some ({| isEditing := false; editValue := VStr text |}, [VStr text]).
Proof.
  intros Ht Hs text. unfold dispatch. rewrite Hs, Ht. simpl.
  destruct date as [d|]; [|done]. subst text. unfold Js.or. simpl.
  case_bool_decide as Hd; simpl; [by rewrite Hd | done].
Qed.

End EditableCellHandlers.

(** ** Client resource table: the rest of the component *)

Section TableMore.

Import ClientResourceTable Invariants.

Variable modelDetails : Model.
Variable Date_parsable : string → bool.

Abbreviation loadResources := (loadResources modelDetails Date_parsable).
Abbreviation inferTypes := (inferTypes modelDetails Date_parsable).
Abbreviation listParams := (listParams modelDetails).
Abbreviation render := (render modelDetails).

(** A column is at least 120 and at most 300 pixels wide; headers of up to
    11 characters get the minimum, headers of 34 characters or more the
    maximum. *)
Theorem getColumnWidth_bounds (header : string) :
  (120 ≤ getColumnWidth header ≤ 300)%Z ∧
  (getColumnWidth header = 120%Z ↔ (String.length header ≤ 11)%nat) ∧
  (getColumnWidth header = 300%Z ↔ (34 ≤ String.length header)%nat).
Proof. unfold getColumnWidth. lia. Qed.

(** However a call of [loadResources] ends, it leaves no loading flag up
    and the table out of its initial-load state, and it does not touch the
    search terms. *)
Theorem loadResources_clears_flags (lr : LoadResources) (isLoadMore : bool)
    (response : Settled Api.ListResult) (w : World) :
  let s' := state (loadResources lr isLoadMore response w) in
  loading s' = false ∧ loadingMore s' = false ∧ initialLoad s' = false ∧
  search s' = search (state w) ∧ debouncedSearch s' = debouncedSearch (state w).
Proof.
  unfold ClientResourceTable.loadResources, loadResources_resume. simpl.
  destruct response as [[data next|err]|e]; simpl;
    try (by destruct isLoadMore).
  destruct (inferTypes _ _) as [cols [e|]]; by destruct isLoadMore.
Qed.

(** A list call that throws or returns an error leaves rows, cursor and
    [hasMore] as they were; the component issues the one request and one
    error toast. *)
Theorem failed_fetch_keeps_rows (lr : LoadResources) (isLoadMore : bool)
    (response : Settled Api.ListResult) (w : World) :
  (∀ data next, response ≠ Resolved (Api.ListData data next)) →
  let w' := loadResources lr isLoadMore response w in
  rows (state w') = rows (state w) ∧
  cursor (state w') = cursor (state w) ∧
  hasMore (state w') = hasMore (state w) ∧
  store w' = store w ∧
  issued w w' = [ListCall (listParams lr isLoadMore); Toast toastLoadError].
Proof.
  intros Hfail w'. subst w'.
  unfold ClientResourceTable.loadResources, loadResources_resume.
  destruct response as [[data next|err]|e]; [by destruct (Hfail data next)|..];
    (split_and!; [by destruct isLoadMore..|]);
    apply issued_app; destruct isLoadMore; simpl; by rewrite <- app_assoc.
Qed.

(** *** Invariants of the inference loop *)

Lemma inferred_refl (cols : list Column) : Forall2 inferred cols cols.
Proof. apply Forall_Forall2_diag, Forall_true. intros c. unfold inferred. auto. Qed.

Lemma inferred_trans (c1 c2 c3 : Column) :
  inferred c1 c2 → inferred c2 c3 → inferred c1 c3.
Proof.
  intros (Hi1 & Hh1 & Ht1) (Hi2 & Hh2 & Ht2). unfold inferred.
  split_and!; [congruence | congruence |].
  destruct Ht2 as [Ht2|Ht2]; [rewrite Ht2; done | by right].
Qed.

Lemma inferType_inferred (value : JsValue) (column : Column) :
  inferred column (inferType Date_parsable value column).
Proof.
  unfold inferred, inferType.
  destruct (typeof value); simpl;
    try destruct (_ || _); simpl; split_and!; try done;
    try (left; done); right; set_solver.
Qed.

Lemma updateFound_inferred (fid : string) (value : JsValue) (cols : list Column) :
  Forall2 inferred cols (updateFound fid (inferType Date_parsable value) cols).
Proof.
  induction cols as [|col cols IH]; simpl; [constructor|].
  case_bool_decide.
  - constructor; [apply inferType_inferred | apply inferred_refl].
  - constructor; [|done]. unfold inferred. auto.
Qed.

Lemma Forall2_inferred_trans (l1 l2 l3 : list Column) :
  Forall2 inferred l1 l2 → Forall2 inferred l2 l3 → Forall2 inferred l1 l3.
Proof.
  intros H12. revert l3. induction H12 as [|c1 c2 l1 l2 Hc _ IH]; intros l3 H23.
  - by inversion H23.
  - inversion H23 as [|? c3 ? l3' Hc' Hl]; subst.
    constructor; [by eapply inferred_trans | by apply IH].
Qed.

(** A [forEach] keeps what each run of its body keeps. *)
Lemma forEach_preserves {A S : Type} (R : S → S → Prop)
    (body : A → S → S * option JsError) (l : list A) (s : S) :
  (∀ s0, R s0 s0) →
  (∀ s1 s2 s3, R s1 s2 → R s2 s3 → R s1 s3) →
  (∀ a s0, R s0 (body a s0).1) →
  R s (forEach body l s).1.
Proof.
  intros Hrefl Htrans Hbody. revert s.
  induction l as [|a l IH]; intros s; simpl; [done|].
  specialize (Hbody a s). destruct (body a s) as [s1 [e|]]; simpl in *; [done|].
  by eapply Htrans.
Qed.

Lemma inferField_inferred (item : JsObject) (field : Field) (cols : list Column) :
  Forall2 inferred cols (inferField Date_parsable item field cols).1.
Proof.
  unfold inferField.
  destruct (get _ _) as [value|e]; simpl; [|apply inferred_refl].
  destruct (negb _); simpl; [apply updateFound_inferred | apply inferred_refl].
Qed.

(** The inference loop changes nothing but types: the columns keep their
    number, order, ids and headers, and a type is either kept or set to
    number, boolean or date.  In particular no column is ever set back to
    text. *)
Theorem inference_only_upgrades_types (data : list JsObject) (cols : list Column) :
  Forall2 inferred cols (inferTypes data cols).1.
Proof.
  unfold ClientResourceTable.inferTypes.
  apply (forEach_preserves (Forall2 inferred));
    [apply inferred_refl | apply Forall2_inferred_trans |].
  intros item cols0.
  apply (forEach_preserves (Forall2 inferred));
    [apply inferred_refl | apply Forall2_inferred_trans |].
  intros field cols1. apply inferField_inferred.
Qed.

Lemma forEach_app {A S : Type} (body : A → S → S * option JsError)
    (l1 l2 : list A) (s s1 : S) :
  forEach body l1 s = (s1, None) →
  forEach body (l1 ++ l2) s = forEach body l2 s1.
Proof.
  revert s. induction l1 as [|a l1 IH]; intros s; simpl.
  - by intros [= ->].
  - destruct (body a s) as [s' [e|]]; [done|]. apply IH.
Qed.

(** Batches add up: inferring from a first batch and then, on the columns
    it left, from a second one gives what inferring from the two batches in
    one go gives; the later observations are the ones that win. *)
Theorem inference_of_successive_batches (data1 data2 : list JsObject)
    (cols cols1 : list Column) :
  inferTypes data1 cols = (cols1, None) →
  inferTypes (data1 ++ data2) cols = inferTypes data2 cols1.
Proof. apply forEach_app. Qed.

End TableMore.

Section TableView.

Import ClientResourceTable.

Variable sessionToken : string.
Variable modelDetails : Model.
Variable Date_parsable : string → bool.

Abbreviation render := (render modelDetails).
Abbreviation view := (view sessionToken).
Abbreviation mount := (mount sessionToken modelDetails Date_parsable).

(** Without a session token the component fetches nothing: the load effect
    leaves the world as it is, mounting issues no effect at all, and the
    view is the card that asks for a connection, whatever the state. *)
Theorem no_session_no_fetch (r : Render) (response : Settled Api.ListResult)
    (w : World) :
  sessionToken = "" →
  loadEffect sessionToken modelDetails Date_parsable r response w = w ∧
  log (mount response) = [] ∧
  view r = Ok ConnectCard.
Proof.
  intros ->. unfold ClientResourceTable.mount, loadEffect, ClientResourceTable.view.
  done.
Qed.

Lemma rowCells_of_record (r : Render) (row : JsObject) :
  hasFields row = true →
  ∃ cells,
    rowCells r row = Ok cells ∧
    cell_columnId <$> cells = id <$> columns r ∧
    cell_type <$> cells = type <$> columns r ∧
    Forall (λ c, get (prop row "fields") (cell_columnId c) = Ok (cell_value c)
                 ∧ cell_rowId c = prop row "id") cells.
Proof.
  intros Hrow. unfold rowCells.
  induction (columns r) as [|column cols IH]; simpl.
  - exists []. split_and!; by constructor.
  - destruct (get_of_hasFields row (id column) Hrow) as [v Hv].
    destruct IH as (cells & -> & Hids & Htypes & Hall). rewrite Hv. simpl.
    eexists. split; [done|]. rewrite !fmap_cons, Hids, Htypes. simpl.
    split_and!; [done..|]. by constructor.
Qed.

Lemma tableCells_of_records (r : Render) (rs : list JsObject) :
  Forall (λ row, hasFields row = true) rs →
  ∃ cells,
    mapM (rowCells r) rs = Ok cells ∧
    Forall2 (λ row rowcells,
               cell_columnId <$> rowcells = id <$> columns r ∧
               Forall (λ c, get (prop row "fields") (cell_columnId c) = Ok (cell_value c)
                            ∧ cell_rowId c = prop row "id") rowcells)
            rs cells.
Proof.
  induction 1 as [|row rs Hrow _ (cells & IH & Hall)]; simpl.
  - exists []. by split; [|constructor].
  - destruct (rowCells_of_record r row Hrow) as (rc & Hrc & Hids & _ & Hcs).
    rewrite Hrc, IH. simpl. eexists. split; [done|]. by constructor.
Qed.

(** The table of a loaded page.  With a session, after the initial load
    and with at least one record: the headers are the names of the model's
    fields in their order; there is one row of cells per record, in order;
    each row has one cell per field of the model, in field order, holding
    [row.fields[field]] ([undefined] when the record lacks the field) and
    the id of its row. *)
Theorem view_of_loaded_rows (w : World) :
  sessionToken ≠ "" →
  initialLoad (state w) = false →
  rows (state w) ≠ [] →
  Forall (λ row, hasFields row = true) (rows (state w)) →
  ∃ cells button noMore,
    view (render w).1
      = Ok (TableView ((λ f, (field_name f, getColumnWidth (field_name f)))
                         <$> model_fields modelDetails)
              (BodyRows cells) button noMore) ∧
    Forall2 (λ row rowcells,
               cell_columnId <$> rowcells = field_id <$> model_fields modelDetails ∧
               Forall (λ c, get (prop row "fields") (cell_columnId c) = Ok (cell_value c)
                            ∧ cell_rowId c = prop row "id") rowcells)
            (rows (state w)) cells.
Proof.
  intros Htok Hinit Hrows Hrecs.
  destruct (tableCells_of_records (render w).1 _ Hrecs) as (cells & Hcells & Hall).
  unfold ClientResourceTable.view. simpl in *.
  rewrite bool_decide_eq_false_2 by done. rewrite Hinit.
  assert (Hlen : length (rows (state w)) ≠ 0).
  { intros Hl. apply Hrows. by apply nil_length_inv. }
  rewrite (bool_decide_eq_false_2 _ Hlen).
  rewrite Hcells. simpl.
  eexists cells, _, _. split.
  - unfold allColumns. by rewrite <- list_fmap_compose.
  - eapply Forall2_impl; [exact Hall|]. intros row rc [Hids Hcs].
    split; [|done]. rewrite Hids. unfold allColumns.
    by rewrite <- list_fmap_compose.
Qed.

(** The "Load More" button and the "No more results" line are never shown
    together, neither is shown while there is no row, and with rows
    exactly one of them is shown: the button when a further page may
    exist. *)
Theorem load_more_button_or_no_more_line (r : Render) (headers : list (string * Z))
    (body : Body) (button : option bool) (noMore : bool) :
  view r = Ok (TableView headers body button noMore) →
  (is_Some button ↔ hasMore (seen r) = true ∧ rows (seen r) ≠ []) ∧
  (noMore = true ↔ hasMore (seen r) = false ∧ rows (seen r) ≠ []) ∧
  (button = Some true ↔ hasMore (seen r) = true ∧ rows (seen r) ≠ []
                          ∧ loadingMore (seen r) = true).
Proof.
  unfold ClientResourceTable.view. case_bool_decide as Htok; [done|].
  destruct (if initialLoad (seen r) then _ else _) as [b|e]; simpl; [|done].
  intros [= <- <- <- <-].
  destruct (hasMore (seen r)), (rows (seen r)) as [|row rs], (loadingMore (seen r));
    simpl; (split; [|split]); split; intros H;
    repeat match goal with
    | H : _ ∧ _ |- _ => destruct H
    | H : is_Some None |- _ => by destruct H as [? [=]]
    | |- _ ∧ _ => split
    end; try done; try (by eexists).
Qed.

(** A failed first load looks like an empty result: after mounting with a
    session and a list call that throws or returns an error, the next
    render shows "No results found." and neither the button nor the
    "No more results" line. *)
Theorem failed_first_load_shows_no_results (response : Settled Api.ListResult) :
  sessionToken ≠ "" →
  (∀ data next, response ≠ Resolved (Api.ListData data next)) →
  view (render (mount response)).1
    = Ok (TableView ((λ f, (field_name f, getColumnWidth (field_name f)))
                       <$> model_fields modelDetails)
            (BodyMessage "No results found.") None false).
Proof.
  intros Htok Hfail.
  unfold ClientResourceTable.mount, loadEffect, ClientResourceTable.view. simpl.
  rewrite !(bool_decide_eq_false_2 _ Htok). simpl.
  unfold ClientResourceTable.loadResources, loadResources_resume.
  destruct response as [[data next|err]|e]; [by destruct (Hfail data next)|..];
    simpl; unfold allColumns; by rewrite <- list_fmap_compose.
Qed.

(** Mounting with a session is one call of [loadResources], by the
    callback of the first render, on the reset state. *)
Lemma mount_with_session (response : Settled Api.ListResult) :
  sessionToken ≠ "" →
  mount response =
    ClientResourceTable.loadResources modelDetails Date_parsable
      {| lr_debouncedSearch := ""; lr_cursor := VUndefined; lr_allColumns := 0 |}
      false response
      {| state := {| search := ""; debouncedSearch := ""; rows := [];
                     cursor := VUndefined; hasMore := true; loading := false;
                     loadingMore := false; initialLoad := true |};
         store := [allColumns modelDetails];
         memo := Some {| lr_debouncedSearch := ""; lr_cursor := VUndefined;
                         lr_allColumns := 0 |};
         log := [] |}.
Proof.
  intros Htok. unfold ClientResourceTable.mount, loadEffect.
  cbn -[ClientResourceTable.loadResources].
  by rewrite (bool_decide_eq_false_2 _ Htok).
Qed.

Lemma loadResources_memo (lr : LoadResources) (isLoadMore : bool)
    (response : Settled Api.ListResult) (w : World) :
  memo (ClientResourceTable.loadResources modelDetails Date_parsable lr isLoadMore
          response w) = memo w.
Proof.
  unfold ClientResourceTable.loadResources, loadResources_resume.
  destruct response as [[data next|err]|e]; simpl; try (by destruct isLoadMore).
  destruct (inferTypes _ _ _ _) as [cols [e|]]; by destruct isLoadMore.
Qed.

(** The cursor of a "Load More" request is the one the callback was created
    with.  After the first load the state holds the cursor the service
    returned, but the callback kept by [useCallback] is still the one of
    the first render: a click on "Load More" asks for the first page
    again. *)
Theorem load_more_after_mount_sends_no_cursor (data : list JsObject)
    (next : JsValue) :
  sessionToken ≠ "" →
  Forall (λ item, hasFields item = true) data →
  let w := mount (Resolved (Api.ListData data next)) in
  cursor (state w) = Js.or next VUndefined ∧
  (∀ response,
     hasMore (state w) = true →
     ∃ rest,
       issued (render w).2
         (handleLoadMore modelDetails Date_parsable (render w).1 response (render w).2)
       = ListCall {| Api.fields := field_id <$> model_fields modelDetails;
                     Api.limit := 20; Api.q := None; Api.cursor := VUndefined |}
         :: rest).
Proof.
  intros Htok Hdata w.
  assert (Hstate : state w =
    {| search := ""; debouncedSearch := ""; rows := data;
       cursor := Js.or next VUndefined; hasMore := negb (is_null next);
       loading := false; loadingMore := false; initialLoad := false |}).
  { subst w. rewrite mount_with_session by done.
    by rewrite loadResources_data. }
  assert (Hmemo : memo w = Some {| lr_debouncedSearch := ""; lr_cursor := VUndefined;
                                   lr_allColumns := 0 |}).
  { subst w. rewrite mount_with_session by done. by rewrite loadResources_memo. }
  split; [by rewrite Hstate|].
  intros response Hmore.
  destruct (handleLoadMore_open modelDetails Date_parsable (render w).1 response
              (render w).2) as [_ [rest Hlog]].
  { done. }
  { simpl. by rewrite Hstate. }
  exists rest. rewrite (issued_app _ _ _ Hlog). f_equal. f_equal.
  unfold ClientResourceTable.render, useCallback. simpl.
  rewrite Hmemo, Hstate. done.
Qed.

End TableView.

Section UpdateMore.

Import ClientResourceTable.

Variable modelDetails : Model.
Variable Date_parsable : string → bool.

Lemma optimistic_other (rowId columnId : string) (value : JsValue) (row : JsObject) :
  strict_eq_string (prop row "id") rowId = false →
  optimistic rowId columnId value row = row.
Proof. intros H. unfold optimistic. by rewrite H. Qed.

Lemma confirmed_other (rowId columnId : string) (value : JsValue) (row : JsObject) :
  strict_eq_string (prop row "id") rowId = false →
  confirmed rowId columnId value row = row.
Proof. intros H. unfold confirmed. by rewrite H. Qed.

(** A cell update whose call returns (with or without error) changes no
    row but those with the given id: the rows keep their number and order,
    and every row with another id is exactly as before.  When no row has
    the id, the rows are unchanged, and the update call is issued all the
    same. *)
Theorem update_touches_addressed_rows_only (r : Render) (rowId columnId : string)
    (value : JsValue) (result : Api.UpdateResult) (reload : Settled Api.ListResult)
    (w : World) :
  let w' := handleCellUpdate modelDetails Date_parsable r rowId columnId value
              (Resolved result) reload w in
  Forall2 (λ row row', strict_eq_string (prop row "id") rowId = false → row' = row)
    (rows (state w)) (rows (state w')) ∧
  (Forall (λ row, strict_eq_string (prop row "id") rowId = false) (rows (state w)) →
     rows (state w') = rows (state w)) ∧
  ∃ rest, issued w w' = UpdateCall rowId {[ columnId := value ]} :: rest.
Proof.
  intros w'.
  assert (Hrows : ∃ f,
    rows (state w') = f <$> rows (state w) ∧
    ∀ row, strict_eq_string (prop row "id") rowId = false → f row = row).
  { subst w'. destruct result.
    - exists (confirmed rowId columnId value ∘ optimistic rowId columnId value).
      split; [simpl; by rewrite list_fmap_compose|].
      intros row Hrow. simpl. rewrite optimistic_other by done.
      by apply confirmed_other.
    - exists (optimistic rowId columnId value). split; [done|].
      intros row Hrow. by apply optimistic_other. }
  destruct Hrows as (f & Hf & Hother). rewrite Hf. split_and!.
  - apply Forall2_fmap_r, Forall_Forall2_diag, Forall_forall.
    intros row _ Hrow. by apply Hother.
  - intros Hall. rewrite <- (list_fmap_id (rows (state w))) at 2.
    apply Forall_fmap_ext_1. eapply Forall_impl; [exact Hall|].
    intros row Hrow. by apply Hother.
  - subst w'. destruct result; simpl; eexists; apply issued_app; simpl;
      by rewrite <- app_assoc.
Qed.

(** After an update that the service accepted, the addressed record holds
    the new value under [fields], every other field of the record reads as
    before, and the record still has the id it was found by. *)
Theorem accepted_update_keeps_other_fields (rowId columnId : string)
    (value : JsValue) (row : JsObject) (fields : gmap string JsValue) :
  strict_eq_string (prop row "id") rowId = true →
  row !! "fields" = Some (VObj fields) →
  columnId ≠ "id" → columnId ≠ "fields" →
  let row' := confirmed rowId columnId value (optimistic rowId columnId value row) in
  get (prop row' "fields") columnId = Ok value ∧
  (∀ k, k ≠ columnId → get (prop row' "fields") k = get (prop row "fields") k) ∧
  prop row' "id" = prop row "id".
Proof.
  intros Hid Hfields Hc1 Hc2 row'. subst row'.
  assert (Hopt : optimistic rowId columnId value row = <[columnId := value]> row).
  { unfold optimistic. by rewrite Hid. }
  assert (Hid' : strict_eq_string (prop (<[columnId := value]> row) "id") rowId = true).
  { unfold prop. by rewrite lookup_insert_ne. }
  rewrite Hopt. unfold confirmed. rewrite Hid'.
  unfold prop. rewrite !lookup_insert_eq.
  rewrite !(lookup_insert_ne _ columnId "fields") by done.
  rewrite (lookup_insert_ne _ "fields" "id") by done.
  rewrite (lookup_insert_ne _ columnId "id") by done.
  rewrite Hfields. simpl. split_and!.
  - by rewrite lookup_insert_eq.
  - intros k Hk. by rewrite lookup_insert_ne.
  - done.
Qed.

End UpdateMore.

(** ** The model registry and the component's entry *)

Section RegistryFacts.

Import ClientResourceTable.

Lemma models_get_None (id : string) :
  mocked.models.get id = None ↔ id ∉ model_id <$> MODELS.
Proof.
  unfold mocked.models.get, MODELS. simpl.
  repeat case_bool_decide; split; try done; set_solver.
Qed.

(** Looking a model up by id gives exactly the registry entry with that
    id (ids are unique), and nothing for any other id; the same for
    connectors. *)
Theorem registry_lookup (id : string) :
  (∀ m, mocked.models.get id = Some m ↔ m ∈ MODELS ∧ model_id m = id) ∧
  (mocked.models.get id = None ↔ id ∉ model_id <$> MODELS) ∧
  (∀ c, mocked.connectors.get id = Some c ↔ c ∈ CONNECTORS ∧ connector_id c = id) ∧
  (mocked.connectors.get id = None ↔ id ∉ connector_id <$> CONNECTORS).
Proof.
  split_and!; try apply models_get_None;
    unfold mocked.models.get, mocked.connectors.get, MODELS, CONNECTORS; simpl.
  - intros m. repeat case_bool_decide; split;
      try (intros [= <-]; split; [set_solver | done]);
      try done; intros [Hin Hid];
      repeat (apply elem_of_cons in Hin; destruct Hin as [->|Hin]; [simpl in *; congruence|]);
      try by apply elem_of_nil in Hin.
  - intros c. repeat case_bool_decide; split;
      try (intros [= <-]; split; [set_solver | done]);
      try done; intros [Hin Hid];
      repeat (apply elem_of_cons in Hin; destruct Hin as [->|Hin]; [simpl in *; congruence|]);
      try by apply elem_of_nil in Hin.
  - repeat case_bool_decide; split; try done; try set_solver.
Qed.

(** The table component answers not-found exactly for the model ids that
    are not in the registry; for a registry model it renders, and leaves
    state and log untouched. *)
Theorem table_not_found_iff_unknown_model (model sessionToken : string) (w : World) :
  let result := ClientResourceTable model sessionToken w in
  (result.1 = Next.NotFound ↔ model ∉ model_id <$> MODELS) ∧
  state result.2 = state w ∧ log result.2 = log w.
Proof.
  unfold ClientResourceTable. simpl.
  pose proof (models_get_None model) as Hnone.
  destruct (mocked.models.get model) as [m|] eqn:Hget; simpl.
  - split; [|done]. split; [done|]. intros Hn. apply Hnone in Hn. done.
  - split; [|done]. split; [|done]. intros _. by apply Hnone.
Qed.

End RegistryFacts.

(** ** The pages *)

Section ServerPageMore.

Import ServerResourcePage.

Variable morph_list : ListCall → Settled Api.ListResult.

Lemma cells_of_record (row : JsObject) (fs : list Field) :
  ClientResourceTable.hasFields row = true →
  ∃ cells, mapM (cell row) fs = Ok cells ∧
           Forall2 (λ f v, cell row f = Ok v) fs cells.
Proof.
  intros Hrow. induction fs as [|f fs (cells & IH & Hall)]; simpl.
  - exists []. by split; [|constructor].
  - destruct (get_of_hasFields row (field_id f) Hrow) as [v Hv].
    assert (Hc : ∃ c, cell row f = Ok c).
    { unfold cell. rewrite Hv. simpl. eauto. }
    destruct Hc as [c Hc]. rewrite Hc, IH. simpl.
    eexists. split; [done|]. by constructor.
Qed.

Lemma rows_of_records (data : list JsObject) (fs : list Field) :
  Forall (λ row, ClientResourceTable.hasFields row = true) data →
  ∃ cells, mapM (λ row, mapM (cell row) fs) data = Ok cells ∧
           Forall2 (λ row rowcells, Forall2 (λ f v, cell row f = Ok v) fs rowcells)
             data cells.
Proof.
  induction 1 as [|row data Hrow _ (cells & IH & Hall)]; simpl.
  - exists []. by split; [|constructor].
  - destruct (cells_of_record row fs Hrow) as (rc & Hrc & Hcs).
    rewrite Hrc, IH. simpl. eexists. split; [done|]. by constructor.
Qed.

(** The page of a registry model whose list call returns records is
    rendered: titled with the model name, with the search box showing the
    query, the field names as headers, and, unless the page is empty, one
    row per record in order with one cell per field in field order. *)
Theorem server_page_renders_records (p : Params) (sp : SearchParams) (m : Model)
    (data : list JsObject) (next : JsValue) :
  mocked.models.get (modelId p) = Some m →
  morph_list (listCall p sp m) = Resolved (Api.ListData data next) →
  Forall (λ row, ClientResourceTable.hasFields row = true) data →
  ∃ body,
    ServerResourcePage morph_list (Resolved p) (Resolved sp)
      = Next.Rendered {| title := model_name m;
                         description := "Server-side " +:+ model_name m +:+ " resources";
                         searchDefault := q sp;
                         headers := field_name <$> model_fields m;
                         body := body |} ∧
    match body with
    | NoResults => data = []
    | Rows cells =>
        data ≠ [] ∧
        Forall2 (λ row rowcells,
                   Forall2 (λ f v, cell row f = Ok v) (model_fields m) rowcells)
          data cells
    end.
Proof.
  intros Hm Hlist Hdata.
  unfold ServerResourcePage, construct. simpl. rewrite Hm. simpl.
  rewrite Hlist. simpl.
  destruct data as [|row data].
  - exists NoResults. done.
  - destruct (rows_of_records (row :: data) (model_fields m) Hdata)
      as (cells & Hcells & Hall).
    rewrite bool_decide_eq_false_2 by done.
    rewrite Hcells. simpl. exists (Rows cells). done.
Qed.

(** What a cell of the server table shows: for a field that holds a
    reference (an object with a truthy [id]) the id of the reference; for
    an object without such an id, a number, a boolean, a date, [null] or a
    missing field, the value as it is. *)
Theorem server_cell_shows_reference_id (row : JsObject) (fields : gmap string JsValue)
    (field : Field) (value : JsValue) :
  row !! "fields" = Some (VObj fields) →
  prop fields (field_id field) = value →
  (∀ s, value ≠ VStr s) →
  cell row field
    = Ok match value with
         | VObj reference =>
             if truthy (prop reference "id") then prop reference "id" else value
         | _ => value
         end.
Proof.
  intros Hrow Hvalue Hstr. unfold cell, prop at 1. rewrite Hrow. simpl.
  fold (prop fields (field_id field)). rewrite Hvalue.
  destruct value; try done. by destruct (Hstr s).
Qed.

End ServerPageMore.

Section ClientPageFacts.

Import ClientResourcePage.

Variable sessions_create : Sessions.CreateRequest → Settled Sessions.CreateResult.

(** The client page is rendered exactly when the route resolves to a
    registry model and the session for the connector is created; the
    table it embeds then gets that model and the token of the session, and
    finds its model in the registry. *)
Theorem client_page_rendered_iff (params : Settled Params) (v : PageView) :
  ClientResourcePage sessions_create params = Next.Rendered v ↔
  ∃ p m,
    params = Resolved p ∧
    mocked.models.get (model p) = Some m ∧
    sessions_create {| Sessions.connectorId := connectorId p;
                       Sessions.ownerId := DEMO_OWNER_ID;
                       Sessions.operations := None |}
      = Resolved (Sessions.SessionData (table_sessionToken v)) ∧
    table_model v = model p ∧
    title v = model_name m ∧
    description v = "Client-side " +:+ model_name m +:+ " resources" ∧
    ∀ w, (ClientResourceTable.ClientResourceTable (table_model v)
            (table_sessionToken v) w).1 ≠ Next.NotFound.
Proof.
  unfold ClientResourcePage, construct. split.
  - destruct params as [p|e]; simpl; [|done].
    destruct (mocked.models.get (model p)) as [m|] eqn:Hm; simpl; [|done].
    destruct (sessions_create _) as [[tok|err]|e] eqn:Hs; simpl; try done.
    intros [= <-]. exists p, m. simpl. split_and!; try done.
    intros w. unfold ClientResourceTable.ClientResourceTable. by rewrite Hm.
  - intros (p & m & -> & Hm & Hs & Hmodel & Htitle & Hdesc & _). simpl.
    rewrite Hm. simpl. unfold mocked.auth.getUserOrOrgId. rewrite Hs. simpl.
    destruct v; simpl in *. by subst.
Qed.

End ClientPageFacts.

Section ConnectionPageFacts.

Import ConnectionPage.

Variable sessions_create : Sessions.CreateRequest → Settled Sessions.CreateResult.

(** The connection page, once the route parameters are there, is rendered
    exactly when the session with the required operations is created and
    the connector is in the registry, and answers not-found otherwise;
    when the route parameters are rejected the page function throws and
    there is no not-found answer. *)
Theorem connection_page_outcomes (params : Settled string) :
  match params with
  | Rejected e => ConnectionPage sessions_create params = Throw e
  | Resolved connectorId =>
      ∃ response,
        ConnectionPage sessions_create params = Ok response ∧
        ∀ v, response = Next.Rendered v ↔
          ∃ c,
            sessions_create {| Sessions.connectorId := connectorId;
                               Sessions.ownerId := DEMO_OWNER_ID;
                               Sessions.operations := Some REQUIRED_OPERATIONS |}
              = Resolved (Sessions.SessionData (connect_sessionToken v)) ∧
            mocked.connectors.get connectorId = Some c ∧
            title v = "Configure " +:+ connector_name c ∧
            description v = "Manage your " +:+ connector_name c
                            +:+ " connection settings and authorization"
  end.
Proof.
  destruct params as [connectorId|e]; [|done].
  unfold ConnectionPage, construct. simpl. eexists. split; [done|].
  unfold mocked.auth.getUserOrOrgId. intros v.
  destruct (sessions_create _) as [[tok|err]|e] eqn:Hs; simpl;
    try (split; [done | by intros (c & [=] & _)]).
  destruct (mocked.connectors.get connectorId) as [c|] eqn:Hc; simpl.
  - split.
    + intros [= <-]. by exists c.
    + intros (c' & [= ->] & [= <-] & Ht & Hd). destruct v; simpl in *. by subst.
  - split; [done | by intros (c & _ & [=] & _)].
Qed.

(** The [authorized] callback creates the custom field only when the
    company model has no custom field with its key yet: it asks for the
    custom fields once, and issues the creation exactly when that call
    returned fields none of which has the key.  It ends normally exactly
    when the field was already there or its creation succeeded. *)
Theorem authorized_creates_missing_field_only (listFields : Settled FieldsResult)
    (createField : Settled CreateFieldResult) :
  let has_key fields := key CUSTOM_FIELD_CONFIG ∈ remote_key <$> fields in
  let run := authorized listFields createField in
  (run.1 = [ListFieldsCall true] ∨
   run.1 = [ListFieldsCall true; CreateFieldCall CUSTOM_FIELD_CONFIG]) ∧
  (CreateFieldCall CUSTOM_FIELD_CONFIG ∈ run.1 ↔
     ∃ fields, listFields = Resolved (FieldsData fields) ∧ ¬ has_key fields) ∧
  (run.2 = Ok () ↔
     ∃ fields, listFields = Resolved (FieldsData fields) ∧
       (has_key fields ∨ ∃ field, createField = Resolved (FieldCreated field))).
Proof.
  intros has_key run. subst run has_key. unfold authorized.
  assert (Hfind : ∀ fields,
    is_Some (List.find (λ field, bool_decide (remote_key field = key CUSTOM_FIELD_CONFIG))
               fields)
    ↔ key CUSTOM_FIELD_CONFIG ∈ remote_key <$> fields).
  { induction fields as [|f fs IH]; simpl.
    - split; [by intros [? [=]] | by intros ?%elem_of_nil].
    - case_bool_decide as Hk.
      + split; [intros _; rewrite <- Hk; by left | by eexists].
      + rewrite IH. split; [by right|].
        intros [Heq|Hin]%elem_of_cons; [by rewrite Heq in Hk | done]. }
  destruct listFields as [[fields|err]|e]; simpl.
  - specialize (Hfind fields).
    destruct (List.find _ fields) as [f|]; simpl.
    + assert (Hin : key CUSTOM_FIELD_CONFIG ∈ remote_key <$> fields)
        by (apply Hfind; by eexists).
      split_and!; [by left | |].
      * split; [intros Hc | intros (fs & [= <-] & Hn); done].
        apply elem_of_cons in Hc; destruct Hc as [Hc|Hc]; [done|]. by apply elem_of_nil in Hc.
      * split; [intros _; exists fields; split; [done | by left] | done].
    + assert (Hnot : ¬ key CUSTOM_FIELD_CONFIG ∈ remote_key <$> fields).
      { intros Hin. apply Hfind in Hin. by destruct Hin as [? [=]]. }
      destruct createField as [[field|err]|e]; simpl;
        (split_and!; [by right | |]);
        try (split; [intros _; by exists fields | intros _; set_solver]);
        split; try done;
        try (intros _; exists fields; split; [done|]; right; by eexists);
        intros (fs & [= <-] & [Hin | [f [=]]]); done.
  - split_and!; [by left | |].
    + split; [intros Hc | by intros (fs & [=] & _)].
      apply elem_of_cons in Hc; destruct Hc as [Hc|Hc]; [done|]. by apply elem_of_nil in Hc.
    + split; [done | by intros (fs & [=] & _)].
  - split_and!; [by left | |].
    + split; [intros Hc | by intros (fs & [=] & _)].
      apply elem_of_cons in Hc; destruct Hc as [Hc|Hc]; [done|]. by apply elem_of_nil in Hc.
    + split; [done | by intros (fs & [=] & _)].
Qed.

End ConnectionPageFacts.

(** ** The navigation shell *)

Section SidebarFacts.

Import AppSidebar.

(** Cases over the registry. *)
Ltac each_connector H :=
  repeat (apply elem_of_cons in H; destruct H as [->|H]);
  [..| by apply elem_of_nil in H].

Ltac each_model H :=
  repeat (apply elem_of_cons in H; destruct H as [->|H]);
  [..| by apply elem_of_nil in H].

(** On every route under [/server/<connector>/] or [/client/<connector>/]
    of a registry connector the sidebar selects that connector, whatever
    was selected before; in particular the route that
    [handleConnectorChange] pushes selects the connector that was picked. *)
Theorem route_selects_its_connector (c : Connector) (mode rest : string)
    (selected : option string) :
  c ∈ CONNECTORS →
  mode = "server" ∨ mode = "client" →
  syncSelection ("/" +:+ mode +:+ "/" +:+ connector_id c +:+ "/" +:+ rest) selected
    = Some (connector_id c) ∧
  syncSelection (handleConnectorChange (connector_id c)).2 selected
    = (handleConnectorChange (connector_id c)).1.
Proof.
  intros Hc Hmode. unfold CONNECTORS in Hc.
  each_connector Hc; destruct Hmode as [-> | ->]; split; reflexivity.
Qed.

(** The selection is only ever replaced by the id of a registry connector:
    whatever the path, the effect either leaves the selection as it is or
    sets it to a connector of the registry. *)
Theorem selection_stays_or_is_a_connector (pathname : string)
    (selected : option string) :
  syncSelection pathname selected = selected ∨
  ∃ c, c ∈ CONNECTORS ∧ syncSelection pathname selected = Some (connector_id c).
Proof.
  unfold syncSelection.
  destruct (Str.findIndex _ _) as [i|]; [|by left].
  case_bool_decide; [|by left].
  destruct (_ !! _) as [connectorId|]; [|by left].
  destruct (existsb _ _) eqn:Hex; [|by left].
  right. apply existsb_exists in Hex as (c & Hin & Hc).
  apply bool_decide_eq_true_1 in Hc. exists c. rewrite <- Hc.
  split; [|done]. by apply list_elem_of_In.
Qed.

(** On the resource page of a registry model, reached for a registry
    connector in either mode, the resources menu has one link per model of
    the registry, and the active link is exactly the one that points to
    the current page. *)
Theorem active_link_is_current_page (c : Connector) (m : Model) (mode : string) :
  c ∈ CONNECTORS →
  m ∈ MODELS →
  mode = "server" ∨ mode = "client" →
  let pathname := "/" +:+ mode +:+ "/" +:+ connector_id c +:+ "/resources/"
                  +:+ model_id m in
  let links := resourceLinks pathname (Some (connector_id c)) in
  text <$> links = model_name <$> MODELS ∧
  Forall (λ link, isActive link = bool_decide (href link = pathname)) links.
Proof.
  intros Hc Hm Hmode. unfold CONNECTORS in Hc. unfold MODELS in Hm.
  each_connector Hc; each_model Hm; destruct Hmode as [-> | ->];
    (split; [reflexivity | repeat constructor]).
Qed.

End SidebarFacts.

Section TopbarFacts.

Import Topbar.

Lemma slashless_cons (c : ascii) (s : string) :
  Str.slashless (String c s) = true → c ≠ "/"%char ∧ Str.slashless s = true.
Proof.
  simpl. case_bool_decide; simpl; [done|]. by intros ->.
Qed.

Lemma segment_slashless (s rest : string) :
  Str.slashless s = true →
  Str.segment (s +:+ "/" +:+ rest) = s ∧ Str.segment s = s.
Proof.
  induction s as [|c s IH]; [done|].
  intros [Hc Hs]%slashless_cons. simpl.
  rewrite bool_decide_eq_false_2 by done.
  destruct (IH Hs) as [-> ->]. done.
Qed.

Lemma split_slashless (s rest : string) :
  Str.slashless s = true →
  Str.split "/" (s +:+ "/" +:+ rest) = s :: Str.split "/" rest ∧
  Str.split "/" s = [s].
Proof.
  induction s as [|c s IH]; [done|].
  intros [Hc Hs]%slashless_cons. simpl.
  rewrite bool_decide_eq_false_2 by done.
  destruct (IH Hs) as [-> ->]. done.
Qed.

Lemma matchFirst_includes (lit s : string) (captured : string) :
  Str.matchFirst [lit] s = Some captured → Str.includes s lit = true.
Proof.
  induction s as [|c s IH]; cbn [Str.matchFirst Str.matchAny Str.includes];
    unfold Str.matchHere; by destruct (Str.startsWith _ lit) eqn:Hp.
Qed.

Lemma startsWith_append (lit rest : string) : Str.startsWith (lit +:+ rest) lit = true.
Proof.
  induction lit as [|c lit IH]; simpl; [done|].
  by rewrite bool_decide_eq_true_2.
Qed.

Lemma skip_append (lit rest : string) : Str.skip (String.length lit) (lit +:+ rest) = rest.
Proof. induction lit as [|c lit IH]; simpl; done. Qed.

Lemma includes_here (lit rest : string) : Str.includes (lit +:+ rest) lit = true.
Proof.
  destruct (lit +:+ rest) eqn:Hs; cbn [Str.includes];
    by rewrite <- Hs, startsWith_append.
Qed.

Lemma includes_append (pre s sub : string) :
  Str.includes s sub = true → Str.includes (pre +:+ s) sub = true.
Proof.
  intros H. induction pre as [|c pre IH]; [done|].
  change (String c pre +:+ s) with (String c (pre +:+ s)).
  cbn [Str.includes]. by rewrite IH, orb_true_r.
Qed.

(** The switch navigates only from a resource page, and to a route of the
    mode it was switched to: whenever [handleToggleChange] pushes a route,
    the path had a [/resources/] part, and on the new route the effect
    puts the switch in the position that was chosen. *)
Theorem toggle_pushes_route_of_chosen_mode (pathname : string) (checked : bool)
    (newPath : string) (t : ToastArgs) :
  handleToggleChange pathname checked = Some (newPath, t) →
  isResourcePage pathname = true ∧
  syncToggle newPath = checked ∧
  isResourcePage newPath = true.
Proof.
  unfold handleToggleChange, isResourcePage.
  destruct (Str.matchFirst ["/resources/"] pathname) as [model|] eqn:Hm; [|done].
  intros [= <- _]. split_and!.
  - by eapply matchFirst_includes.
  - by destruct checked.
  - do 4 apply includes_append. apply includes_here.
Qed.

Lemma matchHere_append (lit m : string) :
  Str.slashless m = true → m ≠ "" →
  Str.matchHere lit (lit +:+ m) = Some m.
Proof.
  intros Hm Hne. unfold Str.matchHere.
  rewrite startsWith_append, skip_append.
  destruct (segment_slashless m "" Hm) as [_ ->].
  by rewrite bool_decide_eq_false_2.
Qed.

Lemma matchFirst_skip (lits : list string) (c : ascii) (s : string) :
  Str.matchAny lits (String c s) = None →
  Str.matchFirst lits (String c s) = Str.matchFirst lits s.
Proof. intros H. cbn [Str.matchFirst]. by rewrite H. Qed.

Lemma matchFirst_here (lits : list string) (s captured : string) :
  Str.matchAny lits s = Some captured →
  Str.matchFirst lits s = Some captured.
Proof. intros H. destruct s; cbn [Str.matchFirst]; by rewrite H. Qed.

Lemma matchAny_one (lit m : string) :
  Str.slashless m = true → m ≠ "" →
  Str.matchAny [lit] (lit +:+ m) = Some m.
Proof. intros Hm Hne. cbn [Str.matchAny]. by rewrite matchHere_append. Qed.

(** Cases over the registry. *)
Ltac each_entry H :=
  repeat (apply elem_of_cons in H; destruct H as [->|H]);
  [..| by apply elem_of_nil in H].

(** On the resource page of a registry connector, for any model segment,
    the switch pushes the same connector and model under the chosen mode:
    switching a server page to client gives the client page of that
    connector and model, and switching back gives the page one came
    from. *)
Theorem toggle_keeps_connector_and_model (c : Connector) (mode m : string)
    (checked : bool) :
  c ∈ CONNECTORS →
  mode = "server" ∨ mode = "client" →
  Str.slashless m = true → m ≠ "" →
  let route mode := "/" +:+ mode +:+ "/" +:+ connector_id c +:+ "/resources/" +:+ m in
  fst <$> handleToggleChange (route mode) checked
    = Some (route (if checked then "client" else "server")).
Proof.
  intros Hc Hmode Hm Hne route. subst route. unfold handleToggleChange.
  assert (Hmodel :
    Str.matchFirst ["/resources/"]
      ("/" +:+ mode +:+ "/" +:+ connector_id c +:+ "/resources/" +:+ m) = Some m).
  { unfold CONNECTORS in Hc.
    each_entry Hc; destruct Hmode as [-> | ->];
      cbv beta iota fix delta [String.append connector_id];
      repeat (rewrite matchFirst_skip by reflexivity);
      apply matchFirst_here; exact (matchAny_one "/resources/" m Hm Hne). }
  assert (Hconnector :
    Str.matchFirst ["/server/"; "/client/"]
      ("/" +:+ mode +:+ "/" +:+ connector_id c +:+ "/resources/" +:+ m)
    = Some (connector_id c)).
  { unfold CONNECTORS in Hc.
    each_entry Hc; destruct Hmode as [-> | ->];
      cbv beta iota fix delta [String.append connector_id];
      apply matchFirst_here; reflexivity. }
  rewrite Hmodel, Hconnector. by destruct checked.
Qed.

(** *** Breadcrumb *)

Lemma crumb_tooltip (segments : list string) (index : nat) (segment : string) :
  let c := crumb segments index segment in
  Topbar.segment c = segment ∧
  (isDynamic c = false → tooltip c = "") ∧
  (isDynamic c = true → tooltip c = "[modelId]" ∨ tooltip c = "[connectorId]").
Proof.
  unfold crumb. simpl.
  destruct (at_is segments (Z.of_nat index - 1) "resources");
    destruct (bool_decide (index = length segments - 1));
    destruct (at_is segments 0 "server" || at_is segments 0 "client");
    destruct (at_truthy segments 1);
    destruct (bool_decide (index = 1)); simpl;
    (split; [done|]); split; intros H; try done; auto.
Qed.

(** The breadcrumb lists the non-empty segments of the path in order; a
    crumb is either static, without tooltip, or a route parameter with the
    tooltip "[modelId]" or "[connectorId]".  A path without any segment
    gives the lone slash. *)
Theorem breadcrumb_lists_segments (pathname : string) :
  let segments := filter (λ part, part ≠ "") (Str.split "/" pathname) in
  match Breadcrumb pathname with
  | None => segments = []
  | Some crumbs =>
      segments ≠ [] ∧
      Topbar.segment <$> crumbs = segments ∧
      Forall (λ c, if isDynamic c
                   then tooltip c = "[modelId]" ∨ tooltip c = "[connectorId]"
                   else tooltip c = "") crumbs
  end.
Proof.
  intros segments. unfold Breadcrumb. fold segments.
  case_bool_decide as Hlen; [by apply nil_length_inv|].
  split_and!.
  - intros Hnil. by rewrite Hnil in Hlen.
  - apply list_eq. intros i. rewrite list_lookup_fmap, list_lookup_imap.
    destruct (segments !! i) as [seg|]; [|done]. simpl. done.
  - apply Forall_forall. intros c Hc.
    apply list_elem_of_lookup in Hc as [i Hc].
    rewrite list_lookup_imap in Hc.
    destruct (segments !! i) as [seg|]; simpl in Hc; [|done].
    injection Hc as <-.
    destruct (crumb_tooltip segments i seg) as (_ & Hstatic & Hdyn).
    destruct (isDynamic (crumb segments i seg)); auto.
Qed.

Lemma split_mode (mode rest : string) :
  mode = "server" ∨ mode = "client" →
  Str.split "/" ("/" +:+ mode +:+ "/" +:+ rest) = "" :: mode :: Str.split "/" rest.
Proof. by intros [-> | ->]. Qed.

Lemma split_resources (m : string) :
  Str.split "/" ("resources/" +:+ m) = "resources" :: Str.split "/" m.
Proof. done. Qed.

(** On a resource route [/<mode>/<connector>/resources/<model>] the
    breadcrumb has the four segments in order and marks exactly the
    connector and the model as route parameters. *)
Theorem breadcrumb_of_resource_route (mode c m : string) :
  mode = "server" ∨ mode = "client" →
  Str.slashless c = true → c ≠ "" →
  Str.slashless m = true → m ≠ "" →
  Breadcrumb ("/" +:+ mode +:+ "/" +:+ c +:+ "/resources/" +:+ m)
    = Some [ {| segment := mode; isDynamic := false; tooltip := "" |};
             {| segment := c; isDynamic := true; tooltip := "[connectorId]" |};
             {| segment := "resources"; isDynamic := false; tooltip := "" |};
             {| segment := m; isDynamic := true; tooltip := "[modelId]" |} ].
Proof.
  intros Hmode Hc Hcne Hm Hmne.
  assert (Hsplit : Str.split "/" ("/" +:+ mode +:+ "/" +:+ c +:+ "/resources/" +:+ m)
                   = [""; mode; c; "resources"; m]).
  { rewrite split_mode by done.
    change ("/resources/" +:+ m) with ("/" +:+ "resources/" +:+ m).
    rewrite (proj1 (split_slashless c _ Hc)), split_resources.
    by rewrite (proj2 (split_slashless m "" Hm)). }
  unfold Breadcrumb. rewrite Hsplit.
  assert (Hmne' : mode ≠ "") by (by destruct Hmode as [-> | ->]).
  rewrite !filter_cons, filter_nil.
  repeat case_decide; try done.
  destruct Hmode as [-> | ->]; simpl; unfold crumb, at_is, at_truthy; simpl;
    rewrite ?andb_false_r; simpl;
    rewrite ?(bool_decide_eq_false_2 (c = "")) by done; done.
Qed.

End TopbarFacts.

(** ** The further properties on concrete inputs *)

Section MoreCellExampleFacts.

Import EditableCell CellExamples MoreCellExamples.

(** Choosing "No" in the boolean cell. *)
Lemma discrete_widget_commits_on_exit_witness :
  isEditing {| isEditing := false; editValue := VBool false |} = false ∧
  [VBool false] = [editValue {| isEditing := false; editValue := VBool false |}].
Proof.
  apply (discrete_widget_commits_on_exit toISOString booleanCell booleanEditing
           {| isEditing := false; editValue := VBool false |} (ValueChange "false")
           [VBool false]); [reflexivity | discriminate | reflexivity].
Defined.

(** Enter in the text cell where "Bob" has been typed. *)
Lemma enter_and_blur_commit_witness :
  ∃ s',
    dispatch toISOString textCell textEditing (KeyDown "Enter")
      = Some (s', [editValue textEditing]) ∧
    editValue s' = editValue textEditing ∧
    isEditing s' = match onUpdate textCell (editValue textEditing) with
                   | Resolved _ => false
                   | Rejected _ => true
                   end.
Proof.
  apply (enter_and_blur_commit toISOString textCell textEditing (KeyDown "Enter"));
    [reflexivity | reflexivity | left; reflexivity].
Defined.

(** Typing "44" into the number cell and pressing Enter. *)
Lemma typed_text_is_committed_as_string_witness :
  ∃ s1 s2,
    dispatch toISOString numberCell numberEditing (Change "44") = Some (s1, []) ∧
    isEditing s1 = true ∧
    dispatch toISOString numberCell s1 (KeyDown "Enter") = Some (s2, [VStr "44"]).
Proof.
  apply (typed_text_is_committed_as_string toISOString numberCell numberEditing "44");
    reflexivity.
Defined.

(** Escape, then a click, in the number cell. *)
Lemma reopened_editor_starts_from_value_witness :
  ∃ s1,
    dispatch toISOString numberCell numberEditing (KeyDown "Escape") = Some (s1, []) ∧
    dispatch toISOString numberCell s1 Click
      = Some ({| isEditing := true; editValue := p_value numberCell |}, []).
Proof.
  apply (reopened_editor_starts_from_value toISOString numberCell numberEditing);
    reflexivity.
Defined.

(** A click on the text cell in display mode. *)
Lemma display_mode_never_commits_witness :
  Click = Click ∧ @nil JsValue = [] ∧
  isEditing (handleStartEdit textCell (initial textCell)) = true ∧
  editValue (handleStartEdit textCell (initial textCell)) = p_value textCell.
Proof.
  apply (display_mode_never_commits toISOString textCell (initial textCell)
           (handleStartEdit textCell (initial textCell)) Click []); reflexivity.
Defined.

(** The stage cell holding "won". *)
Lemma select_cell_shows_label_witness :
  render String_ format stageCell (initial stageCell) = Ok (DisplayView (VStr "Won")).
Proof.
  apply (select_cell_shows_label String_ format stageCell (initial stageCell)
           stageOptions {| label := "Won"; value := "won" |});
    [reflexivity | reflexivity | reflexivity | reflexivity | discriminate].
Defined.

(** Unpicking the day in the date cell. *)
Lemma calendar_commits_a_string_witness :
  let text := match @None Z with Some d => toISOString d | None => "" end in
  dispatch toISOString dateCell dateEditing (CalendarSelect None)
    = Some ({| isEditing := false; editValue := VStr text |}, [VStr text]).
Proof.
  apply (calendar_commits_a_string toISOString dateCell dateEditing None); reflexivity.
Defined.

End MoreCellExampleFacts.

Section MoreTableExampleFacts.

Import ClientResourceTable TableExamples MoreTableExamples.

(** Load more on the opportunity table while the service is unreachable. *)
Lemma failed_fetch_keeps_rows_witness :
  let w' := loadResources crmOpportunity Date_parsable (callback dealsRender) true
              offline dealsLoaded in
  rows (state w') = rows (state dealsLoaded) ∧
  cursor (state w') = cursor (state dealsLoaded) ∧
  hasMore (state w') = hasMore (state dealsLoaded) ∧
  store w' = store dealsLoaded ∧
  issued dealsLoaded w'
    = [ListCall (listParams crmOpportunity (callback dealsRender) true);
       Toast toastLoadError].
Proof.
  apply (failed_fetch_keeps_rows crmOpportunity Date_parsable (callback dealsRender)
           true offline dealsLoaded).
  intros data next. discriminate.
Defined.

(** The contact table without a session token. *)
Lemma no_session_no_fetch_witness :
  loadEffect "" genericContact Date_parsable contactsRender offline contactsShown
    = contactsShown ∧
  log (mount "" genericContact Date_parsable offline) = [] ∧
  view "" contactsRender = Ok ConnectCard.
Proof.
  apply (no_session_no_fetch "" genericContact Date_parsable contactsRender offline
           contactsShown). reflexivity.
Defined.

(** The contact table showing [ada]. *)
Lemma view_of_loaded_rows_witness :
  ∃ cells button noMore,
    view "token" (render genericContact contactsLoaded).1
      = Ok (TableView ((λ f, (field_name f, getColumnWidth (field_name f)))
                         <$> model_fields genericContact)
              (BodyRows cells) button noMore) ∧
    Forall2 (λ row rowcells,
               cell_columnId <$> rowcells = field_id <$> model_fields genericContact ∧
               Forall (λ c, get (prop row "fields") (cell_columnId c) = Ok (cell_value c)
                            ∧ cell_rowId c = prop row "id") rowcells)
            (rows (state contactsLoaded)) cells.
Proof.
  apply (view_of_loaded_rows "token" genericContact contactsLoaded);
    [discriminate | reflexivity | discriminate | repeat constructor].
Defined.

(** The contact table has loaded its only page: the line, not the button. *)
Lemma load_more_button_or_no_more_line_witness :
  (is_Some (@None bool) ↔ hasMore (seen contactsRender) = true
                          ∧ rows (seen contactsRender) ≠ []) ∧
  (true = true ↔ hasMore (seen contactsRender) = false
                 ∧ rows (seen contactsRender) ≠ []) ∧
  (@None bool = Some true ↔ hasMore (seen contactsRender) = true
                            ∧ rows (seen contactsRender) ≠ []
                            ∧ loadingMore (seen contactsRender) = true).
Proof.
  eapply (load_more_button_or_no_more_line "token" contactsRender _ _ None true).
  reflexivity.
Defined.

(** Mounting the contact table while the service is unreachable. *)
Lemma failed_first_load_shows_no_results_witness :
  view "token" (render genericContact
                  (mount "token" genericContact Date_parsable offline)).1
    = Ok (TableView ((λ f, (field_name f, getColumnWidth (field_name f)))
                       <$> model_fields genericContact)
            (BodyMessage "No results found.") None false).
Proof.
  apply (failed_first_load_shows_no_results "token" genericContact Date_parsable offline);
    [discriminate | intros data next; discriminate].
Defined.

(** The opportunity table after its first page, which came with a cursor. *)
Lemma load_more_after_mount_sends_no_cursor_witness :
  let w := mount "token" crmOpportunity Date_parsable
             (Resolved (Api.ListData [deal] (VStr "cursor-1"))) in
  cursor (state w) = Js.or (VStr "cursor-1") VUndefined ∧
  (∀ response,
     hasMore (state w) = true →
     ∃ rest,
       issued (render crmOpportunity w).2
         (handleLoadMore crmOpportunity Date_parsable (render crmOpportunity w).1
            response (render crmOpportunity w).2)
       = ListCall {| Api.fields := field_id <$> model_fields crmOpportunity;
                     Api.limit := 20; Api.q := None; Api.cursor := VUndefined |}
         :: rest).
Proof.
  apply (load_more_after_mount_sends_no_cursor "token" crmOpportunity Date_parsable
           [deal] (VStr "cursor-1")); [discriminate | repeat constructor].
Defined.

(** Setting the last name of [ada]. *)
Lemma accepted_update_keeps_other_fields_witness :
  let row' := confirmed "r1" "lastName" (VStr "Lovelace")
                (optimistic "r1" "lastName" (VStr "Lovelace") ada) in
  get (prop row' "fields") "lastName" = Ok (VStr "Lovelace") ∧
  (∀ k, k ≠ "lastName" → get (prop row' "fields") k = get (prop ada "fields") k) ∧
  prop row' "id" = prop ada "id".
Proof.
  apply (accepted_update_keeps_other_fields "r1" "lastName" (VStr "Lovelace") ada
           adaFields); [reflexivity | reflexivity | discriminate | discriminate].
Defined.

End MoreTableExampleFacts.

Section MorePageExampleFacts.

Import MorePageExamples.

(** The server page of the contacts of hubspot. *)
Lemma server_page_renders_records_witness :
  ∃ body,
    ServerResourcePage.ServerResourcePage oneContact (Resolved contactsRoute)
      (Resolved PageExamples.noQuery)
      = Next.Rendered
          {| ServerResourcePage.title := "Contact";
             ServerResourcePage.description := "Server-side " +:+ "Contact" +:+ " resources";
             ServerResourcePage.searchDefault := None;
             ServerResourcePage.headers := field_name <$> model_fields genericContact;
             ServerResourcePage.body := body |} ∧
    match body with
    | ServerResourcePage.NoResults => [TableExamples.ada] = []
    | ServerResourcePage.Rows cells =>
        [TableExamples.ada] ≠ [] ∧
        Forall2 (λ row rowcells,
                   Forall2 (λ f v, ServerResourcePage.cell row f = Ok v)
                     (model_fields genericContact) rowcells)
          [TableExamples.ada] cells
    end.
Proof.
  apply (server_page_renders_records oneContact contactsRoute PageExamples.noQuery
           genericContact [TableExamples.ada] VNull);
    [reflexivity | reflexivity | repeat constructor].
Defined.

(** The client route of the contacts of hubspot, and the route pushed when
    hubspot is picked in the sidebar. *)
Lemma route_selects_its_connector_witness :
  AppSidebar.syncSelection
    ("/" +:+ "client" +:+ "/" +:+ "hubspot" +:+ "/" +:+ "resources/genericContact") None
    = Some "hubspot" ∧
  AppSidebar.syncSelection (AppSidebar.handleConnectorChange "hubspot").2 None
    = (AppSidebar.handleConnectorChange "hubspot").1.
Proof.
  apply (route_selects_its_connector hubspot "client" "resources/genericContact" None);
    [apply list_elem_of_here | right; reflexivity].
Defined.

(** The server page of the contacts of hubspot. *)
Lemma active_link_is_current_page_witness :
  let pathname := "/" +:+ "server" +:+ "/" +:+ "hubspot" +:+ "/resources/"
                  +:+ "genericContact" in
  let links := AppSidebar.resourceLinks pathname (Some "hubspot") in
  AppSidebar.text <$> links = model_name <$> MODELS ∧
  Forall (λ link, AppSidebar.isActive link
                  = bool_decide (AppSidebar.href link = pathname)) links.
Proof.
  apply (active_link_is_current_page hubspot genericContact "server");
    [apply list_elem_of_here | apply list_elem_of_here | left; reflexivity].
Defined.

(** Switching the server page of the contacts of hubspot to client. *)
Lemma toggle_pushes_route_of_chosen_mode_witness :
  Topbar.isResourcePage "/server/hubspot/resources/genericContact" = true ∧
  Topbar.syncToggle "/client/hubspot/resources/genericContact" = true ∧
  Topbar.isResourcePage "/client/hubspot/resources/genericContact" = true.
Proof.
  eapply (toggle_pushes_route_of_chosen_mode "/server/hubspot/resources/genericContact"
            true "/client/hubspot/resources/genericContact" _).
  reflexivity.
Defined.

Lemma toggle_keeps_connector_and_model_witness :
  let route mode := "/" +:+ mode +:+ "/" +:+ "hubspot" +:+ "/resources/"
                    +:+ "genericContact" in
  fst <$> Topbar.handleToggleChange (route "server") true = Some (route "client").
Proof.
  apply (toggle_keeps_connector_and_model hubspot "server" "genericContact" true);
    [apply list_elem_of_here | left; reflexivity | reflexivity | discriminate].
Defined.

(** The client page of the contacts of hubspot. *)
Lemma breadcrumb_of_resource_route_witness :
  Topbar.Breadcrumb ("/" +:+ "client" +:+ "/" +:+ "hubspot" +:+ "/resources/"
                     +:+ "genericContact")
    = Some [ {| Topbar.segment := "client"; Topbar.isDynamic := false;
                Topbar.tooltip := "" |};
             {| Topbar.segment := "hubspot"; Topbar.isDynamic := true;
                Topbar.tooltip := "[connectorId]" |};
             {| Topbar.segment := "resources"; Topbar.isDynamic := false;
                Topbar.tooltip := "" |};
             {| Topbar.segment := "genericContact"; Topbar.isDynamic := true;
                Topbar.tooltip := "[modelId]" |} ].
Proof.
  apply (breadcrumb_of_resource_route "client" "hubspot" "genericContact");
    [right; reflexivity | reflexivity | discriminate | reflexivity | discriminate].
Defined.

End MorePageExampleFacts.
